(** * Bot_ui front end (frontend/app_v2.js): navigation stack, API helper
      and page functions, embedded as a state-and-exception monad.

    The JavaScript file is a single closure over one mutable object [app]
    (header element, content element, [state.currentUser],
    [state.navigationStack]).  Every function of the closure becomes a
    computation over an explicit record [App] holding that object, the
    responses the network will deliver and a chronological log of the
    observable effects (requests, DOM writes, alerts, page invocations). *)

From Stdlib Require Import String Ascii List Bool Arith NArith Lia DecimalString.
From Stdlib Require DecimalN.
Import ListNotations.
Local Open Scope string_scope.
Local Open Scope list_scope.

(* ------------------------------------------------------------------ *)
(** ** Strings

    A JavaScript string is a sequence of UTF-16 code units; the model keeps
    the code units below 256, one [ascii] each. *)

Module Js.

Definition dquote : ascii := "034"%char.
Definition backslash : ascii := "092"%char.

Definition str (c : ascii) : string := String c EmptyString.

Fixpoint join (sep : string) (l : list string) : string :=
  match l with
  | [] => ""
  | [x] => x
  | x :: rest => x ++ sep ++ join sep rest
  end.

(** Decimal rendering of a non-negative integer, as template literals and
    [String(n)] give it. *)
Definition decimal (n : N) : string := NilEmpty.string_of_uint (N.to_uint n).

(** [WhiteSpace] and [LineTerminator] code units below 256: TAB, LF, VT, FF,
    CR, SP and NBSP. *)
Definition isWhiteSpace (c : ascii) : bool :=
  let n := nat_of_ascii c in
  ((9 <=? n) && (n <=? 13) || (n =? 32) || (n =? 160))%nat.

(** The class [\d]: the ten ASCII digits. *)
Definition isDigit (c : ascii) : bool :=
  let n := nat_of_ascii c in ((48 <=? n) && (n <=? 57))%nat.

Fixpoint trimStart (s : string) : string :=
  match s with
  | EmptyString => EmptyString
  | String c s' => if isWhiteSpace c then trimStart s' else s
  end.

Fixpoint trimEnd (s : string) : string :=
  match s with
  | EmptyString => EmptyString
  | String c s' =>
      match trimEnd s' with
      | EmptyString => if isWhiteSpace c then EmptyString else str c
      | t => String c t
      end
  end.

(** [String.prototype.trim]. *)
Definition trim (s : string) : string := trimEnd (trimStart s).

(** [s.replace(pat, by)] with a string pattern: the first occurrence only. *)
Fixpoint replace (pat by_ s : string) : string :=
  if prefix pat s then by_ ++ substring (String.length pat) (String.length s - String.length pat) s
  else match s with
       | EmptyString => EmptyString
       | String c s' => String c (replace pat by_ s')
       end.

(** The regular expression [/^\d{n}$/] (no flags): [n] digits, then the end
    of the input. *)
Fixpoint test_digits (n : nat) (s : string) : bool :=
  match n, s with
  | O, EmptyString => true
  | S n', String c s' => isDigit c && test_digits n' s'
  | _, _ => false
  end.

(* ------------------------------------------------------------------ *)
(** ** Values

    The values the program handles are the results of [response.json()],
    strings read from the DOM, and [undefined].  A number is kept as its
    canonical decimal rendering (what [String(n)] and [JSON.stringify(n)]
    print); the fields of an object are kept in property order. *)

#[warnings="-register-all"]
Inductive JsVal : Type :=
| JUndefined
| JNull
| JBool (b : bool)
| JNum (repr : string)
| JStr (s : string)
| JArr (elems : list JsVal)
| JObj (fields : list (string * JsVal)).

(** [ToString], as applied by template literals, [new Error(x)] and
    [Array.prototype.join]. *)
Fixpoint toString (v : JsVal) : string :=
  match v with
  | JUndefined => "undefined"
  | JNull => "null"
  | JBool true => "true"
  | JBool false => "false"
  | JNum r => r
  | JStr s => s
  | JArr l =>
      join "," (map (fun x => match x with
                              | JUndefined | JNull => ""
                              | _ => toString x
                              end) l)
  | JObj _ => "[object Object]"
  end.

Definition hexDigit (n : nat) : ascii :=
  if (n <? 10)%nat then ascii_of_nat (48 + n) else ascii_of_nat (87 + n).

(** [QuoteJSONString], one code unit. *)
Definition quoteChar (c : ascii) : string :=
  let n := nat_of_ascii c in
  if (n =? 8)%nat then String backslash "b"
  else if (n =? 9)%nat then String backslash "t"
  else if (n =? 10)%nat then String backslash "n"
  else if (n =? 12)%nat then String backslash "f"
  else if (n =? 13)%nat then String backslash "r"
  else if (n =? 34)%nat then String backslash (str dquote)
  else if (n =? 92)%nat then String backslash (str backslash)
  else if (n <? 32)%nat then
    String backslash ("u00" ++ str (hexDigit (n / 16)) ++ str (hexDigit (n mod 16)))
  else str c.

Fixpoint quoteBody (s : string) : string :=
  match s with
  | EmptyString => EmptyString
  | String c s' => quoteChar c ++ quoteBody s'
  end.

Definition quote (s : string) : string :=
  String dquote (quoteBody s ++ str dquote).

(** [JSON.stringify(v)]; [None] is the result [undefined]. *)
Fixpoint JSON_stringify (v : JsVal) : option string :=
  match v with
  | JUndefined => None
  | JNull => Some "null"
  | JBool true => Some "true"
  | JBool false => Some "false"
  | JNum r =>
      if (r =? "NaN") || (r =? "Infinity") || (r =? "-Infinity")
      then Some "null" else Some r
  | JStr s => Some (quote s)
  | JArr l =>
      Some ("[" ++ join "," (map (fun x => match JSON_stringify x with
                                           | Some t => t
                                           | None => "null"
                                           end) l) ++ "]")%string
  | JObj fs =>
      Some ("{" ++ join ","
              (flat_map (fun kv => match JSON_stringify (snd kv) with
                                   | Some t => [(quote (fst kv) ++ ":" ++ t)%string]
                                   | None => []
                                   end) fs) ++ "}")%string
  end.

(** [a === b] on strings-or-undefined, the result type of [JSON.stringify]. *)
Definition same_text (a b : option string) : bool :=
  match a, b with
  | Some x, Some y => x =? y
  | None, None => true
  | _, _ => false
  end.

(** [a === b].  Arrays and objects compare by reference; the program only
    ever compares values taken from two different responses, which are
    distinct objects. *)
Definition strict_eq (a b : JsVal) : bool :=
  match a, b with
  | JUndefined, JUndefined => true
  | JNull, JNull => true
  | JBool x, JBool y => Bool.eqb x y
  | JNum x, JNum y => (x =? y) && negb (x =? "NaN")
  | JStr x, JStr y => x =? y
  | _, _ => false
  end.

(** [ToBoolean]. *)
Definition truthy (v : JsVal) : bool :=
  match v with
  | JUndefined | JNull => false
  | JBool b => b
  | JNum r => negb ((r =? "0") || (r =? "NaN"))
  | JStr s => negb (s =? "")
  | JArr _ | JObj _ => true
  end.

Fixpoint lookup (k : string) (fs : list (string * JsVal)) : option JsVal :=
  match fs with
  | [] => None
  | (k', v) :: rest => if k' =? k then Some v else lookup k rest
  end.

End Js.
Export Js.

(* ------------------------------------------------------------------ *)
(** ** The application object, the DOM and the outside world *)

(** The six page functions of the closure; [f === g] on them is equality of
    constructors. *)
Inductive PageFunction : Type :=
| PageMainMenu      (* renderMainMenu *)
| PageChatList      (* renderChatList *)
| PageChat          (* renderChat *)
| PageProfile       (* renderProfile *)
| PageFriendsList   (* renderFriendsList *)
| PageRequests.     (* renderRequests *)

Definition PageFunction_eqb (f g : PageFunction) : bool :=
  match f, g with
  | PageMainMenu, PageMainMenu | PageChatList, PageChatList
  | PageChat, PageChat | PageProfile, PageProfile
  | PageFriendsList, PageFriendsList | PageRequests, PageRequests => true
  | _, _ => false
  end.

(** An element of [app.state.navigationStack]: [{ func, args }]. *)
Record Entry : Type := { func : PageFunction; args : list JsVal }.

(** [app.header.innerHTML]: an optional back button and the title. *)
Record Header : Type := { title : string; backButton : bool }.

(** A [<button data-action=... data-uid=... class=...>label</button>]. *)
Record Button : Type :=
  { action : string; uid : option string; class : string; label : string }.

(** The markup of a row of buttons: single buttons and
    [<div class=button-group>] wrappers. *)
Inductive Html : Type :=
| Btn (b : Button)
| ButtonGroup (children : list Button).

(** What a list view shows: an explanatory paragraph or its items. *)
Inductive Listing (A : Type) : Type :=
| Placeholder (text : string)
| Items (items : list A).
Arguments Placeholder {A} text.
Arguments Items {A} items.

Record ChatItem : Type :=
  { chat_uid : string;          (* data-uid *)
    chat_main : string;         (* partner_username || 'Unknown User' *)
    chat_sub : string;          (* last_message_text || '...' *)
    chat_unread : JsVal }.      (* unread_count, shown as a badge when > 0 *)

Record Bubble : Type := { isSent : bool; bubbleText : string }.

Record UserItem : Type := { item_username : string; item_uid : string }.

Record RequestItem : Type :=
  { req_username : string; req_uid : string; req_buttons : Html }.

(** [app.content.innerHTML], by the template that produced it, with the
    values the template interpolates.  Interpolated text is assumed free of
    markup. *)
Inductive Content : Type :=
| Blank
| LoadingPage
| ErrorPage (heading message : string)
| MainMenuPage (username unique_id : string)
| ChatListPage (chats : Listing ChatItem)
| ChatPage (messages : option (list Bubble))   (* None: the loader *)
           (inputValue : string) (inputDisabled : bool)
| ProfilePage (username status unique_id : string) (buttons : list Html)
| FriendsListPage (friends : Listing UserItem)
| RequestsPage (received sent : Listing RequestItem).

(** The second argument of [fetch]. *)
Record RequestInit : Type :=
  { method : option string;
    body : option string;
    headers : list (string * string) }.

Definition noOptions : RequestInit :=
  {| method := None; body := None; headers := [] |}.

(** What [response.json()] settles to. *)
Inductive Body : Type :=
| Parsed (v : JsVal)
| Unparseable (syntaxError : string).

Record Response : Type := { status : N; payload : Body }.

(** [response.ok]. *)
Definition ok (r : Response) : bool :=
  ((200 <=? status r) && (status r <=? 299))%N.

(** How a [fetch] settles. *)
Inductive FetchOutcome : Type :=
| NetworkError (message : string)
| Responds (r : Response).

Inductive ErrorKind : Type := Error | TypeError | SyntaxError.

(** A thrown [Error] object. *)
Record JsError : Type := { kind : ErrorKind; message : string }.

Inductive Event : Type :=
| ETgReady
| ETgExpand
| ERequest (url : string) (init : RequestInit)
| ECall (f : PageFunction) (actuals : list JsVal)
| ESetHeader (h : Header)
| ESetContent (c : Content)
| EShowAlert (text : string)
| EShowPopup (heading text : string)
| EPrompt (text : string)
| ESetBody (heading : string).

(** The closure's state ([header], [content], [currentUser],
    [navigationStack]), the host's [tg.initData], the settlements of the
    fetches still to come, in order, and the effects so far, oldest first. *)
Record App : Type :=
  { header : Header;
    content : Content;
    currentUser : JsVal;
    navigationStack : list Entry;
    initData : string;
    inbox : list FetchOutcome;
    log : list Event }.

Definition apiBaseUrl : string := "http://127.0.0.1:8000".

Definition initialApp (init_data : string) (responses : list FetchOutcome) : App :=
  {| header := {| title := ""; backButton := false |};
     content := Blank;
     currentUser := JNull;
     navigationStack := [];
     initData := init_data;
     inbox := responses;
     log := [] |}.

Definition set_header (h : Header) (a : App) : App :=
  {| header := h; content := content a; currentUser := currentUser a;
     navigationStack := navigationStack a; initData := initData a;
     inbox := inbox a; log := log a |}.

Definition set_content (c : Content) (a : App) : App :=
  {| header := header a; content := c; currentUser := currentUser a;
     navigationStack := navigationStack a; initData := initData a;
     inbox := inbox a; log := log a |}.

Definition set_currentUser (u : JsVal) (a : App) : App :=
  {| header := header a; content := content a; currentUser := u;
     navigationStack := navigationStack a; initData := initData a;
     inbox := inbox a; log := log a |}.

Definition set_navigationStack (s : list Entry) (a : App) : App :=
  {| header := header a; content := content a; currentUser := currentUser a;
     navigationStack := s; initData := initData a;
     inbox := inbox a; log := log a |}.

Definition set_inbox (i : list FetchOutcome) (a : App) : App :=
  {| header := header a; content := content a; currentUser := currentUser a;
     navigationStack := navigationStack a; initData := initData a;
     inbox := i; log := log a |}.

Definition emit (e : Event) (a : App) : App :=
  {| header := header a; content := content a; currentUser := currentUser a;
     navigationStack := navigationStack a; initData := initData a;
     inbox := inbox a; log := log a ++ [e] |}.

(* ------------------------------------------------------------------ *)
(** ** The monad

    A function body either returns, throws, or is suspended at an [await]
    whose fetch has not settled ([Pending]); an [async] function that has
    thrown is a rejected promise. *)

Inductive Outcome (A : Type) : Type :=
| Returned (a : A)
| Thrown (e : JsError)
| Pending.
Arguments Returned {A} a.
Arguments Thrown {A} e.
Arguments Pending {A}.

Definition M (A : Type) : Type := App -> Outcome A * App.

Definition ret {A} (a : A) : M A := fun st => (Returned a, st).

Definition throw {A} (e : JsError) : M A := fun st => (Thrown e, st).

Definition bind {A B} (m : M A) (k : A -> M B) : M B :=
  fun st =>
    match m st with
    | (Returned a, st') => k a st'
    | (Thrown e, st') => (Thrown e, st')
    | (Pending, st') => (Pending, st')
    end.

(** [try { m } catch (e) { h e }]. *)
Definition try_catch {A} (m : M A) (h : JsError -> M A) : M A :=
  fun st =>
    match m st with
    | (Thrown e, st') => h e st'
    | r => r
    end.

(** Calling an [async] function without [await]: the caller goes on with
    the promise, whatever becomes of it.  Every such call in the program is
    the last statement of its caller, so the callee's effects are the
    caller's last. *)
Definition detach {A} (m : M A) : M unit :=
  fun st => (Returned tt, snd (m st)).

Definition modify (f : App -> App) : M unit := fun st => (Returned tt, f st).

Definition gets {A} (f : App -> A) : M A := fun st => (Returned (f st), st).

Declare Scope js_scope.
Delimit Scope js_scope with js.
Notation "x <- m ;; k" := (bind m (fun x => k))
  (at level 61, m at next level, right associativity) : js_scope.
Notation "m ;; k" := (bind m (fun _ => k))
  (at level 61, right associativity) : js_scope.
Local Open Scope js_scope.

Fixpoint mapM {A B} (f : A -> M B) (l : list A) : M (list B) :=
  match l with
  | [] => ret []
  | x :: rest => y <- f x ;; ys <- mapM f rest ;; ret (y :: ys)
  end.

Definition typeError {A} (msg : string) : M A :=
  throw {| kind := TypeError; message := msg |}.

(** [new Error(x)]: the message is [ToString(x)] unless [x] is undefined. *)
Definition new_Error (x : JsVal) : JsError :=
  {| kind := Error;
     message := match x with JUndefined => "" | _ => toString x end |}.

(** [v.k] for the property names the program reads.  Reading a property of
    [null] or [undefined] throws; the message is V8's. *)
Definition getProp (v : JsVal) (k : string) : M JsVal :=
  match v with
  | JUndefined | JNull =>
      typeError ("Cannot read properties of " ++ toString v ++
                 " (reading '" ++ k ++ "')")
  | JObj fs => ret (match lookup k fs with Some x => x | None => JUndefined end)
  | JArr l =>
      ret (if k =? "length" then JNum (decimal (N.of_nat (List.length l)))
           else JUndefined)
  | JStr s =>
      ret (if k =? "length" then JNum (decimal (N.of_nat (String.length s)))
           else JUndefined)
  | JBool _ | JNum _ => ret JUndefined
  end.

(** [v.map(f)]: [Array.prototype.map] when [v] is an array; no other value
    the program can hold has a callable [map]. *)
Definition array_map {B} (name : string) (v : JsVal) (f : JsVal -> M B)
  : M (list B) :=
  match v with
  | JArr l => mapM f l
  | JUndefined | JNull =>
      typeError ("Cannot read properties of " ++ toString v ++ " (reading 'map')")
  | _ => typeError (name ++ ".map is not a function")
  end.

(** [const { k } = v]. *)
Definition destructure (name : string) (v : JsVal) (k : string) : M JsVal :=
  match v with
  | JUndefined | JNull =>
      typeError ("Cannot destructure property '" ++ k ++ "' of '" ++ name ++
                 "' as it is " ++ toString v ++ ".")
  | _ => getProp v k
  end.

(** [{ ...base, ...extra }] on header objects. *)
Fixpoint assign (k v : string) (o : list (string * string)) : list (string * string) :=
  match o with
  | [] => [(k, v)]
  | (k', v') :: rest => if k' =? k then (k, v) :: rest else (k', v') :: assign k v rest
  end.

Definition spread (base extra : list (string * string)) : list (string * string) :=
  fold_left (fun o kv => assign (fst kv) (snd kv) o) extra base.

(* ------------------------------------------------------------------ *)
(** ** Page and header rendering (lines 66-94) *)

(** [renderHeader(title, showBackButton = false)]; the back button's click
    listener is [goBack]. *)
Definition renderHeader (title : string) (showBackButton : bool) : M unit :=
  let h := {| title := title; backButton := showBackButton |} in
  modify (fun st => emit (ESetHeader h) (set_header h st)).

(** A write to the subtree of [app.content]. *)
Definition writeContent (c : Content) : M unit :=
  modify (fun st => emit (ESetContent c) (set_content c st)).

(** [render(contentHtml, eventBinder)].  The listeners an [eventBinder]
    registers are the handler functions of the last section. *)
Definition render (c : Content) : M unit := writeContent c.

Definition renderLoading : M unit := render LoadingPage.

Definition renderErrorPage (title message : string) : M unit :=
  renderHeader "Error" false ;;
  render (ErrorPage title message).

(* ------------------------------------------------------------------ *)
(** ** API helper (lines 26-43) *)

(** [await fetch(url, init)]: the request goes out; the next settlement of
    the inbox, if any, is its result. *)
Definition fetch (url : string) (init : RequestInit) : M Response :=
  fun st =>
    let st := emit (ERequest url init) st in
    match inbox st with
    | [] => (Pending, st)
    | NetworkError msg :: rest =>
        (Thrown {| kind := TypeError; message := msg |}, set_inbox rest st)
    | Responds r :: rest => (Returned r, set_inbox rest st)
    end.

(** [await response.json()]. *)
Definition json (r : Response) : M JsVal :=
  match payload r with
  | Parsed v => ret v
  | Unparseable msg => throw {| kind := SyntaxError; message := msg |}
  end.

Definition apiFetch (endpoint : string) (options : RequestInit) : M JsVal :=
  try_catch
    (tgInitData <- gets initData ;;
     response <- fetch (apiBaseUrl ++ endpoint)
                   {| method := method options;
                      body := body options;
                      headers := spread [("Content-Type", "application/json");
                                         ("X-Telegram-Init-Data", tgInitData)]
                                        (headers options) |} ;;
     if negb (ok response) then
       error <- try_catch (json response)
                  (fun _ => ret (JObj [("detail",
                       JStr ("HTTP error! Status: " ++ decimal (status response)))])) ;;
       detail <- getProp error "detail" ;;
       throw (new_Error detail)
     else if (status response =? 204)%N then ret JNull
     else json response)
    (fun error =>
       renderErrorPage "API Error" (message error) ;;
       throw error).

Definition POST (body : option string) : RequestInit :=
  {| method := Some "POST"; body := body; headers := [] |}.

(* ------------------------------------------------------------------ *)
(** ** Page functions (lines 96-285) *)

Definition renderMainMenu : M unit :=
  renderHeader "Gadwa App" false ;;
  renderLoading ;;
  myProfile <- apiFetch "/api/me" noOptions ;;
  modify (set_currentUser myProfile) ;;
  username <- getProp myProfile "username" ;;
  unique_id <- getProp myProfile "unique_id" ;;
  render (MainMenuPage (toString username) (toString unique_id)).

(** [a || d] inside a template literal. *)
Definition orElse (a : JsVal) (d : string) : string :=
  if truthy a then toString a else d.

Definition chatItem (chat : JsVal) : M ChatItem :=
  partner_uid <- getProp chat "partner_uid" ;;
  partner_username <- getProp chat "partner_username" ;;
  last_message_text <- getProp chat "last_message_text" ;;
  unread_count <- getProp chat "unread_count" ;;
  ret {| chat_uid := toString partner_uid;
         chat_main := orElse partner_username "Unknown User";
         chat_sub := orElse last_message_text "...";
         chat_unread := unread_count |}.

Definition renderChatList : M unit :=
  renderHeader "Chats" true ;;
  renderLoading ;;
  chats <- apiFetch "/api/chats" noOptions ;;
  len <- getProp chats "length" ;;
  content <- (if strict_eq len (JNum "0")
              then ret (Placeholder "You have no message history yet.")
              else items <- array_map "chats" chats chatItem ;; ret (Items items)) ;;
  render (ChatListPage content).

Definition getPartnerUsername (partnerUid : JsVal) : M JsVal :=
  try_catch
    (profile <- apiFetch ("/api/profile/" ++ toString partnerUid) noOptions ;;
     getProp profile "username")
    (fun e => ret partnerUid).

Definition bubble (msg : JsVal) : M Bubble :=
  sender_uid <- getProp msg "sender_uid" ;;
  me <- gets currentUser ;;
  my_id <- getProp me "unique_id" ;;
  text <- getProp msg "text" ;;
  ret {| isSent := strict_eq sender_uid my_id; bubbleText := toString text |}.

(** [document.getElementById('chat-messages').innerHTML = messagesHtml]. *)
Definition setChatMessages (bubbles : list Bubble) : M unit :=
  c <- gets content ;;
  match c with
  | ChatPage _ value disabled => writeContent (ChatPage (Some bubbles) value disabled)
  | _ => typeError "Cannot set properties of null (setting 'innerHTML')"
  end.

(** [document.getElementById('send-btn').addEventListener('click', ...)]. *)
Definition bindSend : M unit :=
  c <- gets content ;;
  match c with
  | ChatPage _ _ _ => ret tt
  | _ => typeError "Cannot read properties of null (reading 'addEventListener')"
  end.

Definition renderChat (partnerUid : JsVal) : M unit :=
  partnerUsername <- getPartnerUsername partnerUid ;;
  renderHeader ("Chat with " ++ toString partnerUsername) true ;;
  render (ChatPage None "" false) ;;
  response <- apiFetch ("/api/chat/" ++ toString partnerUid) noOptions ;;
  messages <- destructure "(intermediate value)" response "messages" ;;
  bubbles <- array_map "messages" messages bubble ;;
  setChatMessages bubbles ;;
  bindSend.

(** The truth values of the five flags of [profile.relation]. *)
Record Relation : Type :=
  { is_me : bool; is_blocked : bool; is_friend : bool;
    sent_request : bool; received_request : bool }.

Definition button (action class label : string) : Button :=
  {| action := action; uid := None; class := class; label := label |}.

(** Lines 188-204.  The label of the add-friend button starts with an emoji
    that is left out here. *)
Definition buttonsHtml (relation : Relation) : list Html :=
  if negb (is_me relation) then
    if is_blocked relation then
      [Btn (button "unblock" "button" "Unblock User")]
    else
      (if is_friend relation then
         [Btn (button "unfriend" "button secondary" "Unfriend")]
       else if sent_request relation then
         [Btn (button "cancel_request" "button secondary" "Cancel Request")]
       else if received_request relation then
         [ButtonGroup [button "accept_friend" "button" "Accept";
                       button "decline_friend" "button secondary" "Decline"]]
       else
         [Btn (button "add_friend" "button" "Add Friend")])
      ++ [Btn (button "block" "button destructive" "Block User")]
  else [].

Definition readRelation (relation : JsVal) : M Relation :=
  me <- getProp relation "is_me" ;;
  blocked <- getProp relation "is_blocked" ;;
  friend <- getProp relation "is_friend" ;;
  sent <- getProp relation "sent_request" ;;
  received <- getProp relation "received_request" ;;
  ret {| is_me := truthy me; is_blocked := truthy blocked;
         is_friend := truthy friend; sent_request := truthy sent;
         received_request := truthy received |}.

Definition renderProfile (targetUid : JsVal) : M unit :=
  renderHeader "Profile" true ;;
  renderLoading ;;
  profile <- apiFetch ("/api/profile/" ++ toString targetUid) noOptions ;;
  relation <- destructure "profile" profile "relation" ;;
  flags <- readRelation relation ;;
  username <- getProp profile "username" ;;
  status <- getProp profile "status" ;;
  unique_id <- getProp profile "unique_id" ;;
  render (ProfilePage (toString username) (toString status) (toString unique_id)
                      (buttonsHtml flags)).

Definition friendItem (friend : JsVal) : M UserItem :=
  unique_id <- getProp friend "unique_id" ;;
  username <- getProp friend "username" ;;
  ret {| item_username := toString username; item_uid := toString unique_id |}.

Definition renderFriendsList : M unit :=
  renderHeader "Friends" true ;;
  renderLoading ;;
  friends <- apiFetch "/api/friends" noOptions ;;
  len <- getProp friends "length" ;;
  content <- (if strict_eq len (JNum "0")
              then ret (Placeholder "You haven't added any friends yet.")
              else items <- array_map "friends" friends friendItem ;; ret (Items items)) ;;
  render (FriendsListPage content).

Definition requestItem (type : string) (req : JsVal) : M RequestItem :=
  username <- getProp req "username" ;;
  unique_id <- getProp req "unique_id" ;;
  let id := toString unique_id in
  let with_uid (b : Button) :=
    {| action := action b; uid := Some id; class := class b; label := label b |} in
  ret {| req_username := toString username;
         req_uid := id;
         req_buttons :=
           if type =? "received"
           then ButtonGroup [with_uid (button "accept_friend" "button" "Accept");
                             with_uid (button "decline_friend" "button secondary" "Decline")]
           else Btn (with_uid (button "cancel_request" "button secondary" "Cancel")) |}.

Definition renderRequestList (list : JsVal) (type : string) : M (Listing RequestItem) :=
  len <- getProp list "length" ;;
  if strict_eq len (JNum "0") then ret (Placeholder "None")
  else items <- array_map "list" list (requestItem type) ;; ret (Items items).

Definition renderRequests : M unit :=
  renderHeader "Friend Requests" true ;;
  renderLoading ;;
  response <- apiFetch "/api/requests" noOptions ;;
  received <- destructure "(intermediate value)" response "received" ;;
  sent <- destructure "(intermediate value)" response "sent" ;;
  receivedHtml <- renderRequestList received "received" ;;
  sentHtml <- renderRequestList sent "sent" ;;
  render (RequestsPage receivedHtml sentHtml).

(** [pageFunction(...args)]: parameters are bound by position, a missing
    argument is [undefined]. *)
Definition call (pageFunction : PageFunction) (args : list JsVal) : M unit :=
  modify (emit (ECall pageFunction args)) ;;
  match pageFunction with
  | PageMainMenu => renderMainMenu
  | PageChatList => renderChatList
  | PageChat => renderChat (nth 0 args JUndefined)
  | PageProfile => renderProfile (nth 0 args JUndefined)
  | PageFriendsList => renderFriendsList
  | PageRequests => renderRequests
  end.

(* ------------------------------------------------------------------ *)
(** ** Navigation (lines 46-64) *)

(** [stack[stack.length - 1]]; [None] is [undefined]. *)
Definition tail_entry (stack : list Entry) : option Entry :=
  match rev stack with
  | [] => None
  | e :: _ => Some e
  end.

(** The condition of the guard at line 49. *)
Definition same_page (currentPage : option Entry)
           (pageFunction : PageFunction) (args' : list JsVal) : bool :=
  match currentPage with
  | None => false
  | Some p =>
      PageFunction_eqb (func p) pageFunction
      && same_text (JSON_stringify (JArr (args p))) (JSON_stringify (JArr args'))
  end.

Definition navigateTo (pageFunction : PageFunction) (args : list JsVal) : M unit :=
  currentPage <- gets (fun st => tail_entry (navigationStack st)) ;;
  if same_page currentPage pageFunction args then ret tt
  else
    modify (fun st => set_navigationStack
              (navigationStack st ++ [{| func := pageFunction; args := args |}]) st) ;;
    detach (call pageFunction args).

Definition goBack : M unit :=
  modify (fun st => set_navigationStack (removelast (navigationStack st)) st) ;;
  previousPage <- gets (fun st => tail_entry (navigationStack st)) ;;
  match previousPage with
  | Some p => detach (call (func p) (args p))
  | None => navigateTo PageMainMenu []
  end.

(* ------------------------------------------------------------------ *)
(** ** Event handlers

    Each listener the page functions register, as a function of what the
    event carries: the clicked element, and what the user answers to a
    prompt. *)

(** [e.target]: its tag name and its [data-action] and [data-uid]
    attributes ([None]: absent, read as [undefined]). *)
Record Target : Type :=
  { tagName : string;
    dataset_action : option string;
    dataset_uid : option string }.

(** A string-or-undefined inside a template literal. *)
Definition interpolate (o : option string) : string :=
  match o with Some s => s | None => "undefined" end.

(** [ToBoolean] of a string-or-null. *)
Definition nonEmpty (o : option string) : bool :=
  match o with Some s => negb (s =? "") | None => false end.

Definition showAlert (text : string) : M unit := modify (emit (EShowAlert text)).

(** Line 140: a row of the chat list. *)
Definition chatListItemClick (uid : string) : M unit :=
  navigateTo PageChat [JStr uid].

(** Line 245: a row of the friends list. *)
Definition friendsListItemClick (uid : string) : M unit :=
  navigateTo PageProfile [JStr uid].

(** Lines 171-179: the send button of the chat with [partnerUid]. *)
Definition sendClick (partnerUid : JsVal) : M unit :=
  c <- gets content ;;
  match c with
  | ChatPage messages value disabled =>
      let text := trim value in
      if negb (text =? "") then
        writeContent (ChatPage messages value true) ;;
        apiFetch ("/api/message/" ++ toString partnerUid)
                 (POST (JSON_stringify (JObj [("text", JStr text)]))) ;;
        detach (call PageChat [partnerUid])
      else ret tt
  | _ => typeError "Cannot read properties of null (reading 'value')"
  end.

(** Lines 216-227: a click inside [#action-buttons] of the profile of
    [targetUid]. *)
Definition profileActionClick (targetUid : JsVal) (target : Target) : M unit :=
  if tagName target =? "BUTTON" then
    let action := dataset_action target in
    (if same_text action (Some "add_friend")
     then apiFetch ("/api/friend_request/" ++ toString targetUid) (POST None)
     else apiFetch ("/api/action/" ++ interpolate action ++ "/" ++ toString targetUid)
                   (POST None)) ;;
    shown <- match action with
             | Some a => ret (replace "_" " " a)
             | None => typeError "Cannot read properties of undefined (reading 'replace')"
             end ;;
    showAlert ("Action '" ++ shown ++ "' was successful!") ;;
    detach (call PageProfile [targetUid])
  else ret tt.

(** Lines 275-283: a click inside the content area while the requests
    listener is registered. *)
Definition requestsClick (target : Target) : M unit :=
  if (tagName target =? "BUTTON") && nonEmpty (dataset_action target) then
    let action := dataset_action target in
    let uid := dataset_uid target in
    apiFetch ("/api/action/" ++ interpolate action ++ "/" ++ interpolate uid)
             (POST None) ;;
    showAlert "Request updated!" ;;
    detach (call PageRequests [])
  else ret tt.

(** Lines 287-305.  The popup is shown; when it closes, the callback asks
    with [prompt], whose answer is [uid] ([None]: cancelled). *)
Definition handleSearch (buttonId : option string) (uid : option string) : M unit :=
  modify (emit (EShowPopup "Search User"
                  "Enter the 8-digit Unique ID of the user you want to find.")) ;;
  modify (emit (EPrompt "Enter the 8-digit User ID:")) ;;
  match uid with
  | Some u =>
      if nonEmpty uid && test_digits 8 u then navigateTo PageProfile [JStr (trim u)]
      else if nonEmpty uid then showAlert "Invalid UID format. Please enter 8 digits."
      else ret tt
  | None => ret tt
  end.

(** Lines 112-119: a click inside the content area while the main menu's
    listener is registered. *)
Definition mainMenuClick (target : Target)
           (buttonId : option string) (answer : option string) : M unit :=
  let action := dataset_action target in
  if negb (nonEmpty action) then ret tt
  else
    (if same_text action (Some "chats") then navigateTo PageChatList [] else ret tt) ;;
    (if same_text action (Some "friends") then navigateTo PageFriendsList [] else ret tt) ;;
    (if same_text action (Some "requests") then navigateTo PageRequests [] else ret tt) ;;
    (if same_text action (Some "search") then handleSearch buttonId answer else ret tt).

(** Lines 6-17 and 308: [DOMContentLoaded]. *)
Definition DOMContentLoaded (telegramWebApp : bool) : M unit :=
  if negb telegramWebApp then
    modify (emit (ESetBody "Error: Telegram WebApp script not found."))
  else
    modify (emit ETgReady) ;;
    modify (emit ETgExpand) ;;
    navigateTo PageMainMenu [].

Definition run {A} (m : M A) (st : App) : App := snd (m st).
Definition result {A} (m : M A) (st : App) : Outcome A := fst (m st).

(* ================================================================== *)
(** * Vocabulary of the properties *)

(** [respects R m]: whatever [m] does to the state stays inside the
    relation [R]. *)
Definition respects {A} (R : App -> App -> Prop) (m : M A) : Prop :=
  forall st, R st (snd (m st)).

Definition is_call (e : Event) : bool :=
  match e with ECall _ _ => true | _ => false end.

Definition is_alert (e : Event) : bool :=
  match e with EShowAlert _ => true | _ => false end.

(** The effects a page function has by itself: requests and writes to the
    header and the content. *)
Definition page_event (e : Event) : bool :=
  match e with
  | ERequest _ _ | ESetHeader _ | ESetContent _ => true
  | _ => false
  end.

(** Number of page-function invocations recorded in a log. *)
Definition page_calls (l : list Event) : nat := List.length (filter is_call l).

(** The navigation stack is left alone. *)
Definition same_stack (st st' : App) : Prop :=
  navigationStack st' = navigationStack st.

(** The navigation stack is left alone and the log
    only grows, by requests and writes to the page. *)
Definition quiet (st st' : App) : Prop :=
  navigationStack st' = navigationStack st
  /\ exists rest, log st' = log st ++ rest /\ forallb page_event rest = true.

(** The operations on the navigation stack, and the arrival of a response
    between two of them. *)
Inductive Op : Type :=
| NavigateTo (pageFunction : PageFunction) (args : list JsVal)
| GoBack
| Settle (o : FetchOutcome).

Definition perform (op : Op) : M unit :=
  match op with
  | NavigateTo f args => navigateTo f args
  | GoBack => goBack
  | Settle o => modify (fun st => set_inbox (inbox st ++ [o]) st)
  end.

Fixpoint performAll (ops : list Op) (st : App) : App :=
  match ops with
  | [] => st
  | op :: rest => performAll rest (run (perform op) st)
  end.

(** The one entry startup pushes. *)
Definition mainMenuEntry : Entry := {| func := PageMainMenu; args := [] |}.

(** The classification of the viewed user that the specification gives
    (section 4.3), in its precedence order: self, blocked, friend,
    request-sent, request-received, none. *)
Inductive RelationKind : Type :=
| Self | Blocked | Friend | RequestSent | RequestReceived | NoRelation.

Definition classify (r : Relation) : RelationKind :=
  if is_me r then Self
  else if is_blocked r then Blocked
  else if is_friend r then Friend
  else if sent_request r then RequestSent
  else if received_request r then RequestReceived
  else NoRelation.

(** The actions the specification lists for each class. *)
Definition actionSet (k : RelationKind) : list string :=
  match k with
  | Self => []
  | Blocked => ["unblock"]
  | Friend => ["unfriend"; "block"]
  | RequestSent => ["cancel_request"; "block"]
  | RequestReceived => ["accept_friend"; "decline_friend"; "block"]
  | NoRelation => ["add_friend"; "block"]
  end.

(** The [data-action] values of the buttons of a piece of markup, in
    document order. *)
Definition actions (html : list Html) : list string :=
  flat_map (fun h => match h with
                     | Btn b => [action b]
                     | ButtonGroup bs => map action bs
                     end) html.

(** The [init] object [apiFetch] hands to [fetch]. *)
Definition requestInit (options : RequestInit) (st : App) : RequestInit :=
  {| method := method options;
     body := body options;
     headers := spread [("Content-Type", "application/json");
                        ("X-Telegram-Init-Data", initData st)]
                       (headers options) |}.

(** The state once [apiFetch] has issued its request, and once that
    request has settled. *)
Definition requested (endpoint : string) (options : RequestInit) (st : App) : App :=
  emit (ERequest (apiBaseUrl ++ endpoint) (requestInit options st)) st.

Definition settled (endpoint : string) (options : RequestInit) (st : App) : App :=
  set_inbox (tl (inbox st)) (requested endpoint options st).

(** The state after [renderErrorPage('API Error', msg)]. *)
Definition errorShown (msg : string) (st : App) : App :=
  run (renderErrorPage "API Error" msg) st.

(** Lines 161-179 of [renderChat]: fetching and showing the conversation. *)
Definition chatConversation (partnerUid : JsVal) : M unit :=
  response <- apiFetch ("/api/chat/" ++ toString partnerUid) noOptions ;;
  messages <- destructure "(intermediate value)" response "messages" ;;
  bubbles <- array_map "messages" messages bubble ;;
  setChatMessages bubbles ;;
  bindSend.

(** Lines 158-179 of [renderChat]: what it does with the name that
    [getPartnerUsername] settled to. *)
Definition chatAfterLookup (partnerUid partnerUsername : JsVal) : M unit :=
  renderHeader ("Chat with " ++ toString partnerUsername) true ;;
  render (ChatPage None "" false) ;;
  chatConversation partnerUid.

Definition errorHeader : Header := {| title := "Error"; backButton := false |}.

(** Lines 149-150: the body of the [try] of [getPartnerUsername], the
    partner's profile lookup. *)
Definition partnerLookup (partnerUid : JsVal) : M JsVal :=
  profile <- apiFetch ("/api/profile/" ++ toString partnerUid) noOptions ;;
  getProp profile "username".

(** The page once lines 158-159 have drawn the chat header for [name] and
    the chat skeleton over the state [st]. *)
Definition chatSkeleton (name : JsVal) (st : App) : App :=
  run (render (ChatPage None "" false))
      (run (renderHeader ("Chat with " ++ toString name) true) st).

(** The kind of the error an outcome carries, if it is one. *)
Definition kind_of {A} (o : Outcome A) : option ErrorKind :=
  match o with Thrown e => Some (kind e) | _ => None end.

(** The value of [o.k] for an object with fields [fs]. *)
Definition field (k : string) (fs : list (string * JsVal)) : JsVal :=
  match lookup k fs with Some x => x | None => JUndefined end.

(** The bubble the specification asks for a message object (section 4.3):
    its text, tagged sent when the sender is the session user. *)
Definition expectedBubble (me msg : JsVal) : option Bubble :=
  match me, msg with
  | JObj user, JObj m =>
      Some {| isSent := strict_eq (field "sender_uid" m) (field "unique_id" user);
              bubbleText := toString (field "text" m) |}
  | _, _ => None
  end.

Definition chatHeader (name : JsVal) : Header :=
  {| title := "Chat with " ++ toString name; backButton := true |}.

(** A text that is empty or made of white space only. *)
Fixpoint allWhiteSpace (s : string) : bool :=
  match s with
  | EmptyString => true
  | String c s' => isWhiteSpace c && allWhiteSpace s'
  end.

(** The request the send button issues for the typed [value]. *)
Definition messagePost (value : string) : RequestInit :=
  POST (JSON_stringify (JObj [("text", JStr (trim value))])).

(** A success that [apiFetch] returns from: no content, or a body that
    parses. *)
Definition returns_value (r : Response) : Prop :=
  ok r = true /\ (status r = 204%N \/ exists v, payload r = Parsed v).

(** An input of exactly eight digits, as the specification has it. *)
Definition exactly_8_digits (s : string) : Prop :=
  String.length s = 8
  /\ forall c, In c (list_ascii_of_string s) -> isDigit c = true.

(** The state once the search popup and the prompt have been shown. *)
Definition asked (st : App) : App :=
  emit (EPrompt "Enter the 8-digit User ID:")
       (emit (EShowPopup "Search User"
                "Enter the 8-digit Unique ID of the user you want to find.") st).

Definition invalidUid : string := "Invalid UID format. Please enter 8 digits.".

(** The alerts recorded in a log. *)
Definition alerts (l : list Event) : list Event := filter is_alert l.

(** ** Sample data for the concrete runs *)

Definition notFound : Response :=
  {| status := 404; payload := Parsed (JObj [("detail", JStr "not found")]) |}.

Definition noContent : Response :=
  {| status := 204; payload := Unparseable "Unexpected end of JSON input" |}.

Definition meResponse : Response :=
  {| status := 200;
     payload := Parsed (JObj [("username", JStr "ann"); ("unique_id", JStr "11111111")]) |}.

Definition bobProfile : Response :=
  {| status := 200;
     payload := Parsed (JObj [("username", JStr "bob"); ("unique_id", JStr "22222222");
                              ("relation", JObj [("is_friend", JBool true)])]) |}.

Definition oneMessage : list JsVal :=
  [JObj [("sender_uid", JStr "11111111"); ("text", JStr "hi")]].

Definition conversation (messages : list JsVal) : Response :=
  {| status := 200; payload := Parsed (JObj [("messages", JArr messages)]) |}.

(** The main menu right after startup. *)
Definition started : App :=
  run (DOMContentLoaded true) (initialApp "proof" [Responds meResponse]).

(** The chat with 22222222 on screen, [value] typed into the input, and
    [responses] on their way. *)
Definition chatting (value : string) (responses : list FetchOutcome) : App :=
  {| header := chatHeader (JStr "bob");
     content := ChatPage (Some []) value false;
     currentUser := JObj [("username", JStr "ann"); ("unique_id", JStr "11111111")];
     navigationStack := [mainMenuEntry;
                         {| func := PageChat; args := [JStr "22222222"] |}];
     initData := "proof";
     inbox := responses;
     log := [] |}.


(** ** Vocabulary of the further properties *)

(** The value of a lower-case hexadecimal digit. *)
Definition unhex (c : ascii) : nat :=
  let n := nat_of_ascii c in if (n <? 58)%nat then n - 48 else n - 87.

(** Reading back the body of a JSON string literal, up to its closing
    quote: the inverse of [quoteBody], used to show that [quote] loses
    nothing. *)
Fixpoint unquoteBody (s : string) : string :=
  match s with
  | EmptyString => EmptyString
  | String c s' =>
      if Ascii.eqb c dquote then EmptyString
      else if Ascii.eqb c backslash then
        match s' with
        | EmptyString => EmptyString
        | String e s'' =>
            if Ascii.eqb e "b" then String (ascii_of_nat 8) (unquoteBody s'')
            else if Ascii.eqb e "t" then String (ascii_of_nat 9) (unquoteBody s'')
            else if Ascii.eqb e "n" then String (ascii_of_nat 10) (unquoteBody s'')
            else if Ascii.eqb e "f" then String (ascii_of_nat 12) (unquoteBody s'')
            else if Ascii.eqb e "r" then String (ascii_of_nat 13) (unquoteBody s'')
            else if Ascii.eqb e "u" then
              match s'' with
              | String _ (String _ (String h (String l s3))) =>
                  String (ascii_of_nat (16 * unhex h + unhex l)) (unquoteBody s3)
              | _ => EmptyString
              end
            else String e (unquoteBody s'')
        end
      else String c (unquoteBody s')
  end.

(** No entry of the stack passes the guard of [navigateTo] against the
    entry below it. *)
Fixpoint distinct_neighbours (stack : list Entry) : bool :=
  match stack with
  | e1 :: ((e2 :: _) as rest) =>
      negb (same_page (Some e1) (func e2) (args e2)) && distinct_neighbours rest
  | _ => true
  end.

(** The requests recorded in a log. *)
Definition requests (l : list Event) : list (string * RequestInit) :=
  flat_map (fun e => match e with ERequest u i => [(u, i)] | _ => [] end) l.

(** The value a header object holds for a name. *)
Fixpoint header_value (k : string) (hs : list (string * string)) : option string :=
  match hs with
  | [] => None
  | (k', v) :: rest => if k' =? k then Some v else header_value k rest
  end.

(** The last value a list of assignments gives a name. *)
Definition last_value (k : string) (hs : list (string * string)) : option string :=
  header_value k (rev hs).

(** The row of the chat list for a conversation object. *)
Definition chatRow (chat : JsVal) : option ChatItem :=
  match chat with
  | JObj fs =>
      Some {| chat_uid := toString (field "partner_uid" fs);
              chat_main := orElse (field "partner_username" fs) "Unknown User";
              chat_sub := orElse (field "last_message_text" fs) "...";
              chat_unread := field "unread_count" fs |}
  | _ => None
  end.

(** The row of the friends list for a friend object. *)
Definition friendRow (friend : JsVal) : option UserItem :=
  match friend with
  | JObj fs =>
      Some {| item_username := toString (field "username" fs);
              item_uid := toString (field "unique_id" fs) |}
  | _ => None
  end.

(** The flags of a relation object: an absent flag reads as false. *)
Definition flagsOf (rel : list (string * JsVal)) : Relation :=
  {| is_me := truthy (field "is_me" rel);
     is_blocked := truthy (field "is_blocked" rel);
     is_friend := truthy (field "is_friend" rel);
     sent_request := truthy (field "sent_request" rel);
     received_request := truthy (field "received_request" rel) |}.

(** The [data-action] and [data-uid] pairs of a request row's buttons. *)
Definition rowButtons (h : Html) : list (string * option string) :=
  match h with
  | Btn b => [(action b, uid b)]
  | ButtonGroup bs => map (fun b => (action b, uid b)) bs
  end.

(** The first code unit of a text is white space. *)
Definition startsWithWhiteSpace (s : string) : bool :=
  match s with
  | EmptyString => false
  | String c _ => isWhiteSpace c
  end.

(** The last code unit of a text is white space. *)
Fixpoint endsWithWhiteSpace (s : string) : bool :=
  match s with
  | EmptyString => false
  | String c EmptyString => isWhiteSpace c
  | String _ s' => endsWithWhiteSpace s'
  end.

(** The row of a requests list for a request object with fields [fs]. *)
Definition requestRow (type : string) (fs : list (string * JsVal)) : RequestItem :=
  let id := toString (field "unique_id" fs) in
  {| req_username := toString (field "username" fs);
     req_uid := id;
     req_buttons :=
       if type =? "received"
       then ButtonGroup
              [{| action := "accept_friend"; uid := Some id;
                  class := "button"; label := "Accept" |};
               {| action := "decline_friend"; uid := Some id;
                  class := "button secondary"; label := "Decline" |}]
       else Btn {| action := "cancel_request"; uid := Some id;
                   class := "button secondary"; label := "Cancel" |} |}.

(** One of the two lists of the requests view. *)
Definition requestListing (type : string) (l : list (list (string * JsVal)))
  : Listing RequestItem :=
  match l with
  | [] => Placeholder "None"
  | _ => Items (map (requestRow type) l)
  end.

Definition requestsHeader : Header :=
  {| title := "Friend Requests"; backButton := true |}.

Definition mainMenuHeader : Header := {| title := "Gadwa App"; backButton := false |}.

Definition profileHeader : Header := {| title := "Profile"; backButton := true |}.

(* ================================================================== *)
(** * Properties *)

(** ** Frame reasoning

    The section derives [respects R] for every page function from what [R]
    allows the primitive writes to do. *)

Section Frame.
Variable R : App -> App -> Prop.
Hypothesis R_refl : forall st, R st st.
Hypothesis R_trans : forall a b c, R a b -> R b c -> R a c.
Hypothesis R_header : forall h st, R st (set_header h st).
Hypothesis R_content : forall c st, R st (set_content c st).
Hypothesis R_currentUser : forall u st, R st (set_currentUser u st).
Hypothesis R_inbox : forall i st, R st (set_inbox i st).
Hypothesis R_emit : forall e st, page_event e = true -> R st (emit e st).

Lemma respects_ret {A} (a : A) : respects R (ret a).
Proof. intros st. apply R_refl. Qed.

Lemma respects_throw {A} (e : JsError) : respects R (@throw A e).
Proof. intros st. apply R_refl. Qed.

Lemma respects_gets {A} (f : App -> A) : respects R (gets f).
Proof. intros st. apply R_refl. Qed.

Lemma respects_bind {A B} (m : M A) (k : A -> M B) :
  respects R m -> (forall a, respects R (k a)) -> respects R (bind m k).
Proof.
  intros Hm Hk st. unfold bind. specialize (Hm st).
  destruct (m st) as [[a | e | ] st']; simpl in *; auto.
  eapply R_trans; [exact Hm | apply Hk].
Qed.

Lemma respects_try_catch {A} (m : M A) (h : JsError -> M A) :
  respects R m -> (forall e, respects R (h e)) -> respects R (try_catch m h).
Proof.
  intros Hm Hh st. unfold try_catch. specialize (Hm st).
  destruct (m st) as [[a | e | ] st']; simpl in *; auto.
  eapply R_trans; [exact Hm | apply Hh].
Qed.

Lemma respects_detach {A} (m : M A) : respects R m -> respects R (detach m).
Proof. intros Hm st. apply Hm. Qed.

Lemma respects_mapM {A B} (f : A -> M B) (l : list A) :
  (forall x, respects R (f x)) -> respects R (mapM f l).
Proof.
  intros Hf. induction l as [| x rest IH]; simpl.
  - apply respects_ret.
  - apply respects_bind; [apply Hf | intros y].
    apply respects_bind; [exact IH | intros ys]. apply respects_ret.
Qed.

Lemma respects_getProp v k : respects R (getProp v k).
Proof. destruct v; simpl; first [apply respects_ret | apply respects_throw]. Qed.

Lemma respects_destructure name v k : respects R (destructure name v k).
Proof.
  destruct v; simpl;
    first [apply respects_throw | apply respects_ret
          | apply (respects_getProp (JArr _)) | apply (respects_getProp (JStr _))].
Qed.

Lemma respects_array_map {B} name v (f : JsVal -> M B) :
  (forall x, respects R (f x)) -> respects R (array_map name v f).
Proof.
  intros Hf. destruct v; simpl;
    first [apply respects_throw | apply respects_mapM; exact Hf].
Qed.

Lemma respects_writeContent c : respects R (writeContent c).
Proof.
  intros st. simpl. eapply R_trans; [apply R_content | apply R_emit; reflexivity].
Qed.

Lemma respects_renderHeader t b : respects R (renderHeader t b).
Proof.
  intros st. simpl. eapply R_trans; [apply R_header | apply R_emit; reflexivity].
Qed.

Lemma respects_fetch url init : respects R (fetch url init).
Proof.
  intros st. unfold fetch.
  assert (H : R st (emit (ERequest url init) st)) by (apply R_emit; reflexivity).
  destruct (inbox (emit (ERequest url init) st)) as [| [msg | r] rest]; simpl;
    [exact H | |]; (eapply R_trans; [exact H | apply R_inbox]).
Qed.

Lemma respects_json r : respects R (json r).
Proof.
  unfold json. destruct (payload r); [apply respects_ret | apply respects_throw].
Qed.

(** One step of the syntax-directed derivation. *)
Ltac frame_step :=
  match goal with
  | |- respects _ (bind _ _) => apply respects_bind; [| intros ?]
  | |- respects _ (try_catch _ _) => apply respects_try_catch; [| intros ?]
  | |- respects _ (ret _) => apply respects_ret
  | |- respects _ (throw _) => apply respects_throw
  | |- respects _ (typeError _) => apply respects_throw
  | |- respects _ (gets _) => apply respects_gets
  | |- respects _ (getProp _ _) => apply respects_getProp
  | |- respects _ (destructure _ _ _) => apply respects_destructure
  | |- respects _ (writeContent _) => apply respects_writeContent
  | |- respects _ (renderHeader _ _) => apply respects_renderHeader
  | |- respects _ (fetch _ _) => apply respects_fetch
  | |- respects _ (json _) => apply respects_json
  | |- respects _ (detach _) => apply respects_detach
  | |- respects _ (array_map _ _ _) => apply respects_array_map; intros ?
  | |- respects _ (modify (set_currentUser _)) => intros ?; apply R_currentUser
  | |- respects _ (if ?b then _ else _) => destruct b
  | |- respects _ (match ?x with _ => _ end) => destruct x
  end.

Ltac frame := repeat frame_step.

Lemma respects_renderErrorPage t m : respects R (renderErrorPage t m).
Proof. unfold renderErrorPage, render. frame. Qed.

Lemma respects_apiFetch endpoint options : respects R (apiFetch endpoint options).
Proof. unfold apiFetch. frame. apply respects_renderErrorPage. Qed.

Lemma respects_renderMainMenu : respects R renderMainMenu.
Proof.
  unfold renderMainMenu, renderLoading, render. frame; apply respects_apiFetch.
Qed.

Lemma respects_renderChatList : respects R renderChatList.
Proof.
  unfold renderChatList, renderLoading, render, chatItem.
  frame; apply respects_apiFetch.
Qed.

Lemma respects_getPartnerUsername uid : respects R (getPartnerUsername uid).
Proof. unfold getPartnerUsername. frame; apply respects_apiFetch. Qed.

Lemma respects_chatConversation uid : respects R (chatConversation uid).
Proof.
  unfold chatConversation, bubble, setChatMessages, bindSend.
  frame; apply respects_apiFetch.
Qed.

Lemma respects_chatAfterLookup uid name : respects R (chatAfterLookup uid name).
Proof.
  unfold chatAfterLookup, render. frame. apply respects_chatConversation.
Qed.

Lemma respects_renderChat uid : respects R (renderChat uid).
Proof.
  unfold renderChat, render, bubble, setChatMessages, bindSend.
  frame; first [apply respects_getPartnerUsername | apply respects_apiFetch].
Qed.

Lemma respects_renderProfile uid : respects R (renderProfile uid).
Proof.
  unfold renderProfile, renderLoading, render, readRelation.
  frame; apply respects_apiFetch.
Qed.

Lemma respects_renderFriendsList : respects R renderFriendsList.
Proof.
  unfold renderFriendsList, renderLoading, render, friendItem.
  frame; apply respects_apiFetch.
Qed.

Lemma respects_renderRequests : respects R renderRequests.
Proof.
  unfold renderRequests, renderRequestList, renderLoading, render, requestItem.
  frame; apply respects_apiFetch.
Qed.

(** The body a page function runs once it has been called. *)
Lemma respects_page_body f args :
  respects R (match f with
              | PageMainMenu => renderMainMenu
              | PageChatList => renderChatList
              | PageChat => renderChat (nth 0 args JUndefined)
              | PageProfile => renderProfile (nth 0 args JUndefined)
              | PageFriendsList => renderFriendsList
              | PageRequests => renderRequests
              end).
Proof.
  destruct f;
    auto using respects_renderMainMenu, respects_renderChatList,
               respects_renderChat, respects_renderProfile,
               respects_renderFriendsList, respects_renderRequests.
Qed.

(** When [R] allows every event, invoking a page and the handlers that
    re-render in place stay inside [R]. *)
Section Handlers.
Hypothesis R_any : forall e st, R st (emit e st).

Lemma respects_call f args : respects R (call f args).
Proof.
  unfold call. apply respects_bind; [| intros _; apply respects_page_body].
  intros st. apply R_any.
Qed.

Lemma respects_showAlert t : respects R (showAlert t).
Proof. intros st. apply R_any. Qed.

Lemma respects_sendClick uid : respects R (sendClick uid).
Proof.
  unfold sendClick. frame;
    first [apply respects_apiFetch | apply respects_call | apply respects_showAlert].
Qed.

Lemma respects_profileActionClick uid target :
  respects R (profileActionClick uid target).
Proof.
  unfold profileActionClick. frame;
    first [apply respects_apiFetch | apply respects_call | apply respects_showAlert].
Qed.

Lemma respects_requestsClick target : respects R (requestsClick target).
Proof.
  unfold requestsClick. frame;
    first [apply respects_apiFetch | apply respects_call | apply respects_showAlert].
Qed.
End Handlers.
End Frame.

(** ** Two instances of the frame *)

Lemma page_calls_app l1 l2 : page_calls (l1 ++ l2) = page_calls l1 + page_calls l2.
Proof. unfold page_calls. rewrite filter_app, length_app. reflexivity. Qed.

Lemma page_events_no_calls l : forallb page_event l = true -> page_calls l = 0.
Proof.
  unfold page_calls. induction l as [| e l IH]; simpl; [reflexivity |].
  intros H. apply andb_prop in H as [He Hl].
  destruct e; try discriminate; simpl; auto.
Qed.

Lemma page_events_no_alerts l : forallb page_event l = true -> filter is_alert l = [].
Proof.
  induction l as [| e l IH]; simpl; [reflexivity |].
  intros H. apply andb_prop in H as [He Hl].
  destruct e; try discriminate; simpl; auto.
Qed.

Lemma quiet_refl st : quiet st st.
Proof. split; [reflexivity | exists []; rewrite app_nil_r; auto]. Qed.

Lemma quiet_trans a b c : quiet a b -> quiet b c -> quiet a c.
Proof.
  intros [Hs1 (r1 & Hl1 & Hc1)] [Hs2 (r2 & Hl2 & Hc2)]. split.
  - congruence.
  - exists (r1 ++ r2). split.
    + rewrite Hl2, Hl1, app_assoc. reflexivity.
    + rewrite forallb_app, Hc1, Hc2. reflexivity.
Qed.

Lemma quiet_emit e st : page_event e = true -> quiet st (emit e st).
Proof.
  intros He. split; [reflexivity |]. exists [e]. split; [reflexivity |].
  simpl. rewrite He. reflexivity.
Qed.

Lemma quiet_silent st st' :
  navigationStack st' = navigationStack st -> log st' = log st -> quiet st st'.
Proof.
  intros Hs Hl. split; [exact Hs |]. exists []. rewrite app_nil_r. auto.
Qed.

Ltac quiet_frame :=
  first [ exact quiet_refl | exact quiet_trans | exact quiet_emit
        | intros; apply quiet_silent; reflexivity ].

(** A page function, once called, neither touches the stack nor calls
    another page function. *)
Lemma page_body_quiet f args :
  respects quiet (match f with
                  | PageMainMenu => renderMainMenu
                  | PageChatList => renderChatList
                  | PageChat => renderChat (nth 0 args JUndefined)
                  | PageProfile => renderProfile (nth 0 args JUndefined)
                  | PageFriendsList => renderFriendsList
                  | PageRequests => renderRequests
                  end).
Proof.
  apply respects_page_body; quiet_frame.
Qed.

Lemma call_spec f args st :
  navigationStack (run (call f args) st) = navigationStack st
  /\ exists rest, log (run (call f args) st) = log st ++ ECall f args :: rest
                  /\ forallb page_event rest = true.
Proof.
  unfold run, call, bind, modify.
  destruct (page_body_quiet f args (emit (ECall f args) st)) as [Hs (rest & Hl & Hc)].
  split; [exact Hs |]. exists rest. split; [| exact Hc].
  rewrite Hl. simpl. rewrite <- app_assoc. reflexivity.
Qed.

Lemma call_keeps_stack f args st :
  navigationStack (run (call f args) st) = navigationStack st.
Proof. apply call_spec. Qed.

(** ** The navigation stack *)

Lemma tail_entry_push stack e : tail_entry (stack ++ [e]) = Some e.
Proof. unfold tail_entry. rewrite rev_unit. reflexivity. Qed.

Lemma tail_entry_none stack : tail_entry stack = None -> stack = [].
Proof.
  unfold tail_entry. intros H.
  destruct (rev stack) as [| e r] eqn:E; [| discriminate].
  rewrite <- (rev_involutive stack), E. reflexivity.
Qed.

Lemma PageFunction_eqb_refl f : PageFunction_eqb f f = true.
Proof. destruct f; reflexivity. Qed.

Lemma same_text_refl a : same_text a a = true.
Proof. destruct a; simpl; [apply String.eqb_refl | reflexivity]. Qed.

Lemma same_page_pushed f actuals :
  same_page (Some {| func := f; args := actuals |}) f actuals = true.
Proof.
  unfold same_page. cbn [func args].
  rewrite PageFunction_eqb_refl, same_text_refl. reflexivity.
Qed.

(** The state a guarded call leaves, and the one a real navigation leaves. *)
Lemma navigateTo_guarded f args st :
  same_page (tail_entry (navigationStack st)) f args = true ->
  navigateTo f args st = (Returned tt, st).
Proof. intros H. unfold navigateTo, bind, gets. rewrite H. reflexivity. Qed.

Lemma navigateTo_fresh f args st :
  same_page (tail_entry (navigationStack st)) f args = false ->
  navigateTo f args st =
  (Returned tt,
   run (call f args)
       (set_navigationStack (navigationStack st ++ [{| func := f; args := args |}]) st)).
Proof. intros H. unfold navigateTo, bind, gets. rewrite H. reflexivity. Qed.

Lemma navigateTo_returns f args st : result (navigateTo f args) st = Returned tt.
Proof.
  unfold result.
  destruct (same_page (tail_entry (navigationStack st)) f args) eqn:E.
  - rewrite navigateTo_guarded by exact E. reflexivity.
  - rewrite navigateTo_fresh by exact E. reflexivity.
Qed.

(** After [navigateTo f args] the tail of the stack passes the guard for
    [(f, args)], whether the call pushed or not. *)
Lemma navigateTo_leaves_guard f args st :
  same_page (tail_entry (navigationStack (run (navigateTo f args) st))) f args = true.
Proof.
  unfold run.
  destruct (same_page (tail_entry (navigationStack st)) f args) eqn:E.
  - rewrite navigateTo_guarded by exact E. exact E.
  - rewrite navigateTo_fresh by exact E. cbn [snd].
    rewrite call_keeps_stack. cbn [navigationStack set_navigationStack].
    rewrite tail_entry_push. apply same_page_pushed.
Qed.

(** The guard makes [navigateTo] idempotent in every state. *)
Lemma navigateTo_idempotent f args st :
  run (navigateTo f args) (run (navigateTo f args) st) = run (navigateTo f args) st.
Proof.
  unfold run at 1. rewrite navigateTo_guarded; [reflexivity |].
  apply navigateTo_leaves_guard.
Qed.

(** C1. Calling [navigateTo] twice in a row with the same page function and
    the same arguments, from a state whose top entry is not already that
    page, pushes exactly one entry and invokes the page function exactly
    once; the second call returns at the guard and leaves the whole state
    (stack, header, content, log) as the first call left it. *)
Theorem navigateTo_twice_pushes_once
        (pageFunction : PageFunction) (args : list JsVal) (st : App) :
  same_page (tail_entry (navigationStack st)) pageFunction args = false ->
  let st1 := run (navigateTo pageFunction args) st in
  let st2 := run (navigateTo pageFunction args) st1 in
  navigationStack st2 =
    navigationStack st ++ [{| func := pageFunction; args := args |}]
  /\ (exists rest, log st2 = log st ++ ECall pageFunction args :: rest
                   /\ page_calls rest = 0)
  /\ page_calls (log st2) = S (page_calls (log st))
  /\ navigateTo pageFunction args st1 = (Returned tt, st1)
  /\ st2 = st1.
Proof.
  intros Hfresh st1 st2.
  assert (Hnoop : navigateTo pageFunction args st1 = (Returned tt, st1)).
  { apply navigateTo_guarded. apply navigateTo_leaves_guard. }
  assert (H21 : st2 = st1) by (unfold st2, run; rewrite Hnoop; reflexivity).
  assert (Hst1 : st1 = run (call pageFunction args)
                   (set_navigationStack
                      (navigationStack st ++ [{| func := pageFunction; args := args |}]) st)).
  { unfold st1, run. rewrite navigateTo_fresh by exact Hfresh. reflexivity. }
  destruct (call_spec pageFunction args
              (set_navigationStack
                 (navigationStack st ++ [{| func := pageFunction; args := args |}]) st))
    as [Hs (rest & Hl & Hc)].
  rewrite <- Hst1 in Hs, Hl.
  cbn [navigationStack log set_navigationStack] in Hs, Hl.
  rewrite H21. repeat split.
  - exact Hs.
  - exists rest. split; [exact Hl | apply page_events_no_calls, Hc].
  - rewrite Hl, page_calls_app. unfold page_calls at 2. simpl.
    fold (page_calls rest). rewrite (page_events_no_calls rest Hc). lia.
  - exact Hnoop.
Qed.

Lemma navigateTo_twice_pushes_once_witness :
  same_page (tail_entry (navigationStack started)) PageChatList [] = false
  /\ navigationStack
       (run (navigateTo PageChatList []) (run (navigateTo PageChatList []) started))
     = navigationStack started ++ [{| func := PageChatList; args := [] |}]
  /\ run (navigateTo PageChatList []) (run (navigateTo PageChatList []) started)
     = run (navigateTo PageChatList []) started.
Proof.
  pose proof (navigateTo_twice_pushes_once PageChatList [] started eq_refl) as H.
  cbv zeta in H. destruct H as (H1 & _ & _ & _ & H5).
  split; [reflexivity | split; [exact H1 | exact H5]].
Defined.

Lemma navigateTo_nonempty f args st :
  navigationStack (run (navigateTo f args) st) <> [].
Proof.
  pose proof (navigateTo_leaves_guard f args st) as H.
  intros E. rewrite E in H. discriminate.
Qed.

Lemma goBack_tail st e :
  tail_entry (removelast (navigationStack st)) = Some e ->
  goBack st =
  (Returned tt,
   run (call (func e) (args e))
       (set_navigationStack (removelast (navigationStack st)) st)).
Proof.
  intros H. unfold goBack, bind, modify, gets.
  cbn [navigationStack set_navigationStack]. rewrite H. reflexivity.
Qed.

Lemma goBack_fallback st :
  tail_entry (removelast (navigationStack st)) = None ->
  goBack st =
  navigateTo PageMainMenu [] (set_navigationStack (removelast (navigationStack st)) st).
Proof.
  intros H. unfold goBack, bind, modify, gets.
  cbn [navigationStack set_navigationStack]. rewrite H. reflexivity.
Qed.

Lemma goBack_nonempty st : navigationStack (run goBack st) <> [].
Proof.
  unfold run.
  destruct (tail_entry (removelast (navigationStack st))) as [e |] eqn:E.
  - rewrite (goBack_tail st e E). cbn [snd]. rewrite call_keeps_stack.
    cbn [navigationStack set_navigationStack].
    intros E'. rewrite E' in E. discriminate.
  - rewrite (goBack_fallback st E). apply navigateTo_nonempty.
Qed.

Lemma perform_nonempty op st :
  navigationStack st <> [] -> navigationStack (run (perform op) st) <> [].
Proof.
  intros H. destruct op as [f args | | o]; simpl.
  - apply navigateTo_nonempty.
  - apply goBack_nonempty.
  - exact H.
Qed.

Lemma performAll_nonempty ops : forall st,
  navigationStack st <> [] -> navigationStack (performAll ops st) <> [].
Proof.
  induction ops as [| op rest IH]; intros st H; simpl.
  - exact H.
  - apply IH. apply perform_nonempty. exact H.
Qed.

Lemma startup_stack init responses :
  navigationStack (run (DOMContentLoaded true) (initialApp init responses))
  = [mainMenuEntry].
Proof.
  unfold run, DOMContentLoaded, bind, modify. cbn [negb].
  rewrite navigateTo_fresh by reflexivity. cbn [snd].
  rewrite call_keeps_stack. reflexivity.
Qed.

(** C2. Once [DOMContentLoaded] has pushed the main menu, no sequence of
    [navigateTo] and [goBack] calls (with responses arriving in between)
    leaves the navigation stack empty; and [goBack] on a stack of one entry
    pops it, finds no tail, and navigates to the main menu, which is then
    the stack's only entry and the one page function invoked. *)
Theorem stack_nonempty_after_startup :
  (forall init responses ops,
      navigationStack
        (performAll ops (run (DOMContentLoaded true) (initialApp init responses)))
      <> [])
  /\ (forall st e,
         navigationStack st = [e] ->
         navigationStack (run goBack st) = [mainMenuEntry]
         /\ goBack st =
            navigateTo PageMainMenu [] (set_navigationStack [] st)
         /\ exists rest,
             log (run goBack st) = log st ++ ECall PageMainMenu [] :: rest
             /\ page_calls rest = 0).
Proof.
  split.
  - intros init responses ops. apply performAll_nonempty.
    rewrite startup_stack. discriminate.
  - intros st e Hst.
    assert (Hfb : goBack st = navigateTo PageMainMenu [] (set_navigationStack [] st)).
    { rewrite goBack_fallback; rewrite Hst; reflexivity. }
    destruct (call_spec PageMainMenu []
                (set_navigationStack ([] ++ [mainMenuEntry]) (set_navigationStack [] st)))
      as [Hs (rest & Hl & Hc)].
    unfold run in *. rewrite Hfb.
    rewrite navigateTo_fresh by reflexivity. cbn [snd].
    repeat split.
    + exact Hs.
    + exists rest. split; [exact Hl | apply page_events_no_calls, Hc].
Qed.

Lemma stack_nonempty_after_startup_witness :
  navigationStack started = [mainMenuEntry]
  /\ navigationStack (performAll [GoBack; NavigateTo PageFriendsList []; GoBack; GoBack]
                                 started) <> []
  /\ navigationStack (run goBack started) = [mainMenuEntry].
Proof.
  split; [reflexivity | split].
  - exact (proj1 stack_nonempty_after_startup "proof" [Responds meResponse]
                 [GoBack; NavigateTo PageFriendsList []; GoBack; GoBack]).
  - exact (proj1 (proj2 stack_nonempty_after_startup started mainMenuEntry eq_refl)).
Defined.

(** ** The profile's buttons *)

(** C3. The buttons of the profile view carry exactly the actions the
    specification assigns to the relation, classified in the order self,
    blocked, friend, request-sent, request-received, none: none for self;
    unblock for blocked; unfriend and block for friend; cancel-request and
    block; accept, decline and block; add-friend and block. *)
Theorem profile_actions_by_relation (relation : Relation) :
  actions (buttonsHtml relation) = actionSet (classify relation).
Proof.
  destruct relation as [[] [] [] [] []]; reflexivity.
Qed.

(** ** The API helper *)

Lemma apiFetch_pending endpoint options st :
  inbox st = [] ->
  apiFetch endpoint options st = (Pending, requested endpoint options st).
Proof.
  intros H. unfold apiFetch, try_catch, bind, gets, fetch.
  cbn [inbox emit]. rewrite H. reflexivity.
Qed.

Lemma apiFetch_network endpoint options st msg rest :
  inbox st = NetworkError msg :: rest ->
  apiFetch endpoint options st =
  (Thrown {| kind := TypeError; message := msg |},
   errorShown msg (settled endpoint options st)).
Proof.
  intros H. unfold apiFetch, try_catch, bind, gets, fetch, settled.
  cbn [inbox emit]. rewrite H. reflexivity.
Qed.

(** What [apiFetch] does once a response has arrived. *)
Lemma apiFetch_response endpoint options st r rest :
  inbox st = Responds r :: rest ->
  apiFetch endpoint options st =
  try_catch
    (if negb (ok r) then
       error <- try_catch (json r)
                  (fun _ => ret (JObj [("detail",
                       JStr ("HTTP error! Status: " ++ decimal (status r)))])) ;;
       detail <- getProp error "detail" ;;
       throw (new_Error detail)
     else if (status r =? 204)%N then ret JNull
     else json r)
    (fun error => renderErrorPage "API Error" (message error) ;; throw error)
    (settled endpoint options st).
Proof.
  intros H. unfold apiFetch, try_catch, bind, gets, fetch, settled.
  cbn [inbox emit]. rewrite H. reflexivity.
Qed.

Lemma apiFetch_no_content endpoint options st r rest :
  inbox st = Responds r :: rest -> status r = 204%N ->
  apiFetch endpoint options st = (Returned JNull, settled endpoint options st).
Proof.
  intros H Hs. rewrite (apiFetch_response _ _ _ _ _ H).
  unfold try_catch, ok. rewrite Hs. reflexivity.
Qed.

Lemma apiFetch_parsed endpoint options st r rest v :
  inbox st = Responds r :: rest -> ok r = true -> status r <> 204%N ->
  payload r = Parsed v ->
  apiFetch endpoint options st = (Returned v, settled endpoint options st).
Proof.
  intros H Hok Hs Hp. rewrite (apiFetch_response _ _ _ _ _ H).
  apply N.eqb_neq in Hs.
  unfold try_catch, json. rewrite Hok, Hs, Hp. reflexivity.
Qed.

Lemma apiFetch_unparseable endpoint options st r rest msg :
  inbox st = Responds r :: rest -> ok r = true -> status r <> 204%N ->
  payload r = Unparseable msg ->
  apiFetch endpoint options st =
  (Thrown {| kind := SyntaxError; message := msg |},
   errorShown msg (settled endpoint options st)).
Proof.
  intros H Hok Hs Hp. rewrite (apiFetch_response _ _ _ _ _ H).
  apply N.eqb_neq in Hs.
  unfold try_catch, json. rewrite Hok, Hs, Hp. reflexivity.
Qed.

(** C6. When the response is a success: status 204 makes [apiFetch] return
    [null] without reading a body; any other success status makes it return
    the value the body parses to (and when the body is not JSON the parse
    error takes the failure path instead of a return). *)
Theorem apiFetch_success endpoint options st r rest :
  inbox st = Responds r :: rest ->
  ok r = true ->
  (status r = 204%N ->
     apiFetch endpoint options st = (Returned JNull, settled endpoint options st))
  /\ (status r <> 204%N ->
        forall v, payload r = Parsed v ->
        apiFetch endpoint options st = (Returned v, settled endpoint options st))
  /\ (status r <> 204%N ->
        forall msg, payload r = Unparseable msg ->
        result (apiFetch endpoint options) st
        = Thrown {| kind := SyntaxError; message := msg |}).
Proof.
  intros H Hok. repeat split.
  - intros Hs. eapply apiFetch_no_content; eassumption.
  - intros Hs v Hp. eapply apiFetch_parsed; eassumption.
  - intros Hs msg Hp. unfold result.
    erewrite apiFetch_unparseable by eassumption. reflexivity.
Qed.

Lemma apiFetch_success_witness :
  (inbox (initialApp "proof" [Responds noContent]) = [Responds noContent]
   /\ ok noContent = true
   /\ apiFetch "/api/action/block/22222222" (POST None)
               (initialApp "proof" [Responds noContent])
      = (Returned JNull,
         settled "/api/action/block/22222222" (POST None)
                 (initialApp "proof" [Responds noContent])))
  /\ (inbox (initialApp "proof" [Responds meResponse]) = [Responds meResponse]
      /\ ok meResponse = true
      /\ apiFetch "/api/me" noOptions (initialApp "proof" [Responds meResponse])
         = (Returned (JObj [("username", JStr "ann"); ("unique_id", JStr "11111111")]),
            settled "/api/me" noOptions (initialApp "proof" [Responds meResponse]))).
Proof.
  split; (split; [reflexivity | split; [reflexivity |]]).
  - apply (proj1 (apiFetch_success "/api/action/block/22222222" (POST None)
                    (initialApp "proof" [Responds noContent]) noContent []
                    eq_refl eq_refl)).
    reflexivity.
  - apply (proj1 (proj2 (apiFetch_success "/api/me" noOptions
                    (initialApp "proof" [Responds meResponse]) meResponse []
                    eq_refl eq_refl))).
    + discriminate.
    + reflexivity.
Defined.

(** ** Failed API calls *)

Lemma errorShown_spec msg st :
  header (errorShown msg st) = errorHeader
  /\ content (errorShown msg st) = ErrorPage "API Error" msg
  /\ log (errorShown msg st) =
     log st ++ [ESetHeader errorHeader; ESetContent (ErrorPage "API Error" msg)]
  /\ navigationStack (errorShown msg st) = navigationStack st
  /\ currentUser (errorShown msg st) = currentUser st
  /\ inbox (errorShown msg st) = inbox st.
Proof.
  unfold errorShown, run, renderErrorPage, render, renderHeader, writeContent,
    bind, modify. cbn. rewrite <- app_assoc. repeat split; reflexivity.
Qed.

Lemma apiFetch_failed endpoint options st r rest :
  inbox st = Responds r :: rest -> ok r = false ->
  exists e,
    apiFetch endpoint options st =
    (Thrown e, errorShown (message e) (settled endpoint options st)).
Proof.
  intros H Hok. rewrite (apiFetch_response _ _ _ _ _ H).
  unfold try_catch, bind, json. rewrite Hok. cbn [negb].
  destruct (payload r) as [v | m]; [destruct v |]; eexists; reflexivity.
Qed.

Lemma apiFetch_failed_detail endpoint options st r rest fs d :
  inbox st = Responds r :: rest -> ok r = false ->
  payload r = Parsed (JObj fs) -> lookup "detail" fs = Some (JStr d) ->
  apiFetch endpoint options st =
  (Thrown {| kind := Error; message := d |},
   errorShown d (settled endpoint options st)).
Proof.
  intros H Hok Hp Hd. rewrite (apiFetch_response _ _ _ _ _ H).
  unfold try_catch, bind, json, getProp, ret. rewrite Hok, Hp, Hd. reflexivity.
Qed.

Lemma apiFetch_failed_generic endpoint options st r rest m :
  inbox st = Responds r :: rest -> ok r = false ->
  payload r = Unparseable m ->
  apiFetch endpoint options st =
  (Thrown {| kind := Error;
             message := "HTTP error! Status: " ++ decimal (status r) |},
   errorShown ("HTTP error! Status: " ++ decimal (status r))
              (settled endpoint options st)).
Proof.
  intros H Hok Hp. rewrite (apiFetch_response _ _ _ _ _ H).
  unfold try_catch, bind, json. rewrite Hok, Hp. reflexivity.
Qed.

(** Whenever [apiFetch] throws, its [catch] block has just drawn the error
    page. *)
Lemma apiFetch_thrown endpoint options st e st' :
  apiFetch endpoint options st = (Thrown e, st') ->
  exists s0, st' = errorShown (message e) s0.
Proof.
  unfold apiFetch. unfold try_catch at 1.
  match goal with |- context [match ?m st with _ => _ end] => destruct (m st) as [[a | e0 | ] s0] end;
    intros H; try discriminate.
  unfold bind, renderErrorPage, render, renderHeader, writeContent, modify, throw in H.
  inversion H; subst. exists s0. reflexivity.
Qed.

Ltac fail_fetch H Hok :=
  match goal with
  | |- context [apiFetch ?ep ?o ?s] =>
      let e := fresh "e" in
      let He := fresh "He" in
      destruct (apiFetch_failed ep o s _ _ H Hok) as [e He];
      rewrite He; exists e; eexists; reflexivity
  end.

(** A page function other than [renderChat] whose request fails ends with
    the error page. *)
Lemma page_aborts f args st r rest :
  f <> PageChat ->
  inbox st = Responds r :: rest -> ok r = false ->
  exists e s0, call f args st = (Thrown e, errorShown (message e) s0).
Proof.
  intros Hf H Hok.
  destruct f; try congruence;
    unfold call, renderMainMenu, renderChatList, renderProfile, renderFriendsList,
      renderRequests, renderLoading, render, renderHeader, writeContent;
    unfold bind at 1 2 3; unfold modify; cbv beta iota;
    unfold bind at 1; fail_fetch H Hok.
Qed.

Lemma chat_history_aborts uid name st r rest :
  inbox st = Responds r :: rest -> ok r = false ->
  exists e s0, chatAfterLookup uid name st = (Thrown e, errorShown (message e) s0).
Proof.
  intros H Hok.
  unfold chatAfterLookup, chatConversation, render, renderHeader, writeContent.
  unfold bind at 1 2; unfold modify; cbv beta iota;
    unfold bind at 1; fail_fetch H Hok.
Qed.

(** C4, as the code has it. A response with a non-success status makes
    [apiFetch] throw; the message is the body's [detail] when the body
    parses to an object whose [detail] is a string, and
    [HTTP error! Status: <code>] when the body does not parse; before the
    error is re-thrown the error page (header [Error], heading [API Error],
    that message) has replaced header and content.  A page function whose
    request fails this way stops there with the error page as its last
    write; this holds for the five page functions that await [apiFetch]
    directly and for [renderChat]'s request for the conversation, not for
    the partner lookup, whose error [getPartnerUsername] catches. *)
Theorem api_failure_shows_error_page endpoint options st r rest :
  inbox st = Responds r :: rest ->
  ok r = false ->
  (exists e,
      apiFetch endpoint options st =
      (Thrown e, errorShown (message e) (settled endpoint options st))
      /\ header (errorShown (message e) (settled endpoint options st)) = errorHeader
      /\ content (errorShown (message e) (settled endpoint options st))
         = ErrorPage "API Error" (message e))
  /\ (forall fs d,
         payload r = Parsed (JObj fs) -> lookup "detail" fs = Some (JStr d) ->
         result (apiFetch endpoint options) st
         = Thrown {| kind := Error; message := d |})
  /\ (forall m,
         payload r = Unparseable m ->
         result (apiFetch endpoint options) st
         = Thrown {| kind := Error;
                     message := "HTTP error! Status: " ++ decimal (status r) |})
  /\ (forall f args,
         f <> PageChat ->
         exists e s0, call f args st = (Thrown e, errorShown (message e) s0))
  /\ (forall uid name,
         exists e s0,
           chatAfterLookup uid name st = (Thrown e, errorShown (message e) s0)).
Proof.
  intros H Hok. repeat split.
  - destruct (apiFetch_failed endpoint options st r rest H Hok) as [e He].
    exists e. split; [exact He |]. split; apply errorShown_spec.
  - intros fs d Hp Hd. unfold result.
    rewrite (apiFetch_failed_detail _ _ _ _ _ _ _ H Hok Hp Hd). reflexivity.
  - intros m Hp. unfold result.
    rewrite (apiFetch_failed_generic _ _ _ _ _ _ H Hok Hp). reflexivity.
  - intros f args Hf. eapply page_aborts; eassumption.
  - intros uid name. eapply chat_history_aborts; eassumption.
Qed.

Lemma api_failure_shows_error_page_witness :
  inbox (initialApp "proof" [Responds notFound]) = [Responds notFound]
  /\ ok notFound = false
  /\ result (apiFetch "/api/me" noOptions) (initialApp "proof" [Responds notFound])
     = Thrown {| kind := Error; message := "not found" |}
  /\ (exists e s0,
         call PageMainMenu [] (initialApp "proof" [Responds notFound])
         = (Thrown e, errorShown (message e) s0)).
Proof.
  pose proof (api_failure_shows_error_page "/api/me" noOptions
                (initialApp "proof" [Responds notFound]) notFound [] eq_refl eq_refl)
    as (_ & Hdetail & _ & Hpage & _).
  split; [reflexivity | split; [reflexivity | split]].
  - exact (Hdetail [("detail", JStr "not found")] "not found" eq_refl eq_refl).
  - apply Hpage. discriminate.
Defined.

(** C4 as the specification words it fails.  A 500 whose body is not JSON
    gives the message [HTTP error! Status: 500], not
    [HTTP error, status=500]; a 500 whose body is the JSON text [null] has
    no [detail] to report, and reading it throws a [TypeError]; and when
    the failing call is the partner lookup of [renderChat], the view goes on
    rendering after the error page: it ends on the chat page. *)
Lemma api_failure_counterexample :
  let r500 := {| status := 500; payload := Unparseable "Unexpected end of JSON input" |} in
  let r404 := {| status := 404; payload := Parsed (JObj [("detail", JStr "not found")]) |} in
  let r200 := {| status := 200; payload := Parsed (JObj [("messages", JArr [])]) |} in
  (ok r500 = false
   /\ result (apiFetch "/api/me" noOptions) (initialApp "proof" [Responds r500])
      = Thrown {| kind := Error; message := "HTTP error! Status: 500" |}
   /\ "HTTP error! Status: 500" <> "HTTP error, status=500")
  /\ (kind_of (result (apiFetch "/api/me" noOptions)
                      (initialApp "proof" [Responds {| status := 500; payload := Parsed JNull |}]))
      = Some TypeError)
  /\ (ok r404 = false
      /\ result (call PageChat [JStr "12345678"])
                (initialApp "proof" [Responds r404; Responds r200])
         = Returned tt
      /\ log (run (call PageChat [JStr "12345678"])
                  (initialApp "proof" [Responds r404; Responds r200]))
         = [ECall PageChat [JStr "12345678"];
            ERequest "http://127.0.0.1:8000/api/profile/12345678"
                     (requestInit noOptions (initialApp "proof" []));
            ESetHeader errorHeader;
            ESetContent (ErrorPage "API Error" "not found");
            ESetHeader {| title := "Chat with 12345678"; backButton := true |};
            ESetContent (ChatPage None "" false);
            ERequest "http://127.0.0.1:8000/api/chat/12345678"
                     (requestInit noOptions (initialApp "proof" []));
            ESetContent (ChatPage (Some []) "" false)]).
Proof.
  cbv zeta. repeat split; try reflexivity. discriminate.
Qed.

(** ** The chat view *)

Lemma renderChat_unfold uid :
  renderChat uid = bind (getPartnerUsername uid) (chatAfterLookup uid).
Proof. reflexivity. Qed.

Lemma chatConversation_quiet uid : respects quiet (chatConversation uid).
Proof. apply respects_chatConversation; quiet_frame. Qed.

Lemma bubble_returns st msg b :
  expectedBubble (currentUser st) msg = Some b -> bubble msg st = (Returned b, st).
Proof.
  unfold expectedBubble. intros Hb.
  destruct (currentUser st) as [| | | | | | user] eqn:Eu; try discriminate.
  destruct msg as [| | | | | | m]; try discriminate.
  injection Hb as Hb.
  unfold bubble, bind, getProp, gets, ret. rewrite Eu, <- Hb. reflexivity.
Qed.

Lemma mapM_bubble st ms : forall bs,
  map (expectedBubble (currentUser st)) ms = map Some bs ->
  mapM bubble ms st = (Returned bs, st).
Proof.
  induction ms as [| msg ms IH]; intros [| b bs] H; try discriminate.
  - reflexivity.
  - simpl in H. injection H as Hb Hrest.
    cbn [mapM]. unfold bind at 1. rewrite (bubble_returns st msg b Hb).
    unfold bind at 1. rewrite (IH bs Hrest). reflexivity.
Qed.

Lemma bind_returned {A B} (m : M A) (k : A -> M B) st a st' :
  m st = (Returned a, st') -> bind m k st = k a st'.
Proof. intros H. unfold bind. rewrite H. reflexivity. Qed.

Lemma bind_thrown {A B} (m : M A) (k : A -> M B) st e st' :
  m st = (Thrown e, st') -> bind m k st = (Thrown e, st').
Proof. intros H. unfold bind. rewrite H. reflexivity. Qed.

Lemma bind_pending {A B} (m : M A) (k : A -> M B) st st' :
  m st = (Pending, st') -> bind m k st = (Pending, st').
Proof. intros H. unfold bind. rewrite H. reflexivity. Qed.

(** The state in which the chat view awaits the conversation. *)
Lemma chatAfterLookup_run uid name st rc rest fs ms bs :
  inbox st = Responds rc :: rest ->
  ok rc = true -> status rc <> 204%N ->
  payload rc = Parsed (JObj fs) -> lookup "messages" fs = Some (JArr ms) ->
  map (expectedBubble (currentUser st)) ms = map Some bs ->
  chatAfterLookup uid name st =
  (Returned tt,
   run (writeContent (ChatPage (Some bs) "" false))
       (settled ("/api/chat/" ++ toString uid) noOptions
          (run (render (ChatPage None "" false))
               (run (renderHeader ("Chat with " ++ toString name) true) st)))).
Proof.
  intros H Hok Hs Hp Hm Hb. unfold chatAfterLookup, chatConversation.
  erewrite bind_returned by reflexivity.
  erewrite bind_returned by reflexivity.
  erewrite bind_returned
    by (eapply apiFetch_parsed; [exact H | exact Hok | exact Hs | exact Hp]).
  erewrite bind_returned by (cbn [destructure getProp]; rewrite Hm; reflexivity).
  erewrite bind_returned by (cbn [array_map]; apply mapM_bubble; exact Hb).
  erewrite bind_returned by reflexivity.
  reflexivity.
Qed.

(** What the chat view shows once the conversation has arrived. *)
Lemma chatAfterLookup_shows uid name st rc rest fs ms bs :
  inbox st = Responds rc :: rest ->
  ok rc = true -> status rc <> 204%N ->
  payload rc = Parsed (JObj fs) -> lookup "messages" fs = Some (JArr ms) ->
  map (expectedBubble (currentUser st)) ms = map Some bs ->
  result (chatAfterLookup uid name) st = Returned tt
  /\ header (run (chatAfterLookup uid name) st) = chatHeader name
  /\ content (run (chatAfterLookup uid name) st) = ChatPage (Some bs) "" false.
Proof.
  intros H Hok Hs Hp Hm Hb. unfold result, run.
  rewrite (chatAfterLookup_run uid name st rc rest fs ms bs H Hok Hs Hp Hm Hb).
  repeat split.
Qed.

(** C7. When the partner's profile lookup of the chat view fails, whether
    [apiFetch] throws or the answer has no profile to read a name from,
    [getPartnerUsername] returns the raw identifier and the error goes no
    further.  [renderChat] goes on in the same run: it draws the chat
    header, named by the identifier, and the chat skeleton, and only then
    waits for the conversation; so whenever control is back with the browser
    (the conversation still on its way, or arrived) the screen holds the
    chat view and no error page, whatever [apiFetch] had written on its
    way. *)
Theorem partner_lookup_failure_is_swallowed (uid : JsVal) st e st' :
  partnerLookup uid st = (Thrown e, st') ->
  getPartnerUsername uid st = (Returned uid, st')
  /\ renderChat uid st = chatConversation uid (chatSkeleton uid st')
  /\ header (chatSkeleton uid st') = chatHeader uid
  /\ content (chatSkeleton uid st') = ChatPage None "" false
  /\ (inbox st' = [] ->
        let waiting :=
          requested ("/api/chat/" ++ toString uid) noOptions (chatSkeleton uid st') in
        renderChat uid st = (Pending, waiting)
        /\ header waiting = chatHeader uid
        /\ content waiting = ChatPage None "" false)
  /\ (forall rc rest fs ms bs,
         inbox st' = Responds rc :: rest ->
         ok rc = true -> status rc <> 204%N ->
         payload rc = Parsed (JObj fs) -> lookup "messages" fs = Some (JArr ms) ->
         map (expectedBubble (currentUser st')) ms = map Some bs ->
         result (renderChat uid) st = Returned tt
         /\ header (run (renderChat uid) st) = chatHeader uid
         /\ content (run (renderChat uid) st) = ChatPage (Some bs) "" false).
Proof.
  intros H.
  assert (Hg : getPartnerUsername uid st = (Returned uid, st')).
  { change (getPartnerUsername uid)
      with (try_catch (partnerLookup uid) (fun _ : JsError => ret uid)).
    unfold try_catch. rewrite H. reflexivity. }
  assert (Hr : renderChat uid st = chatAfterLookup uid uid st').
  { rewrite renderChat_unfold. apply (bind_returned _ _ _ _ _ Hg). }
  assert (Hk : chatAfterLookup uid uid st' = chatConversation uid (chatSkeleton uid st')).
  { unfold chatAfterLookup.
    erewrite bind_returned by reflexivity.
    erewrite bind_returned by reflexivity. reflexivity. }
  split; [exact Hg | split; [rewrite Hr; exact Hk |]].
  split; [reflexivity | split; [reflexivity | split]].
  - intros Hi waiting. split; [| split; reflexivity].
    rewrite Hr, Hk. unfold chatConversation.
    apply bind_pending. apply apiFetch_pending. exact Hi.
  - intros rc rest fs ms bs Hi Hok Hs Hp Hm Hb.
    unfold result, run. rewrite Hr.
    apply (chatAfterLookup_shows uid uid st' rc rest fs ms bs); assumption.
Qed.

Lemma partner_lookup_failure_is_swallowed_witness :
  let refused := chatting "" [Responds notFound] in
  let refused' := errorShown "not found"
                    (settled "/api/profile/22222222" noOptions refused) in
  let empty := chatting "" [Responds noContent; Responds (conversation oneMessage)] in
  let empty' := settled "/api/profile/22222222" noOptions empty in
  (partnerLookup (JStr "22222222") refused
   = (Thrown {| kind := Error; message := "not found" |}, refused')
   /\ inbox refused' = []
   /\ renderChat (JStr "22222222") refused
      = (Pending,
         requested "/api/chat/22222222" noOptions
                   (chatSkeleton (JStr "22222222") refused'))
   /\ header (requested "/api/chat/22222222" noOptions
                        (chatSkeleton (JStr "22222222") refused'))
      = chatHeader (JStr "22222222")
   /\ content (requested "/api/chat/22222222" noOptions
                         (chatSkeleton (JStr "22222222") refused'))
      = ChatPage None "" false)
  /\ (partnerLookup (JStr "22222222") empty
      = (Thrown {| kind := TypeError;
                   message := "Cannot read properties of null (reading 'username')" |},
         empty')
      /\ getPartnerUsername (JStr "22222222") empty = (Returned (JStr "22222222"), empty')
      /\ header (run (renderChat (JStr "22222222")) empty) = chatHeader (JStr "22222222")
      /\ content (run (renderChat (JStr "22222222")) empty)
         = ChatPage (Some [{| isSent := true; bubbleText := "hi" |}]) "" false).
Proof.
  intros refused refused' empty empty'. split.
  - pose proof (partner_lookup_failure_is_swallowed (JStr "22222222") refused
                  {| kind := Error; message := "not found" |} refused' eq_refl)
      as (_ & _ & _ & _ & Hwait & _).
    destruct (Hwait eq_refl) as (Hp & Hh & Hc).
    split; [reflexivity | split; [reflexivity | split; [exact Hp | split]]].
    + exact Hh.
    + exact Hc.
  - pose proof (partner_lookup_failure_is_swallowed (JStr "22222222") empty
                  {| kind := TypeError;
                     message := "Cannot read properties of null (reading 'username')" |}
                  empty' eq_refl)
      as (Hg & _ & _ & _ & _ & Hend).
    destruct (Hend (conversation oneMessage) [] [("messages", JArr oneMessage)] oneMessage
                   [{| isSent := true; bubbleText := "hi" |}]
                   eq_refl eq_refl) as (_ & Hh & Hm);
      try reflexivity; try discriminate.
    split; [reflexivity | split; [exact Hg | split; [exact Hh | exact Hm]]].
Defined.

(** ** Settled requests *)

Lemma settled_spec endpoint options st :
  inbox (settled endpoint options st) = tl (inbox st)
  /\ currentUser (settled endpoint options st) = currentUser st
  /\ content (settled endpoint options st) = content st
  /\ navigationStack (settled endpoint options st) = navigationStack st.
Proof. repeat split; reflexivity. Qed.

(** A request whose answer is there settles: it consumes that answer and
    leaves the session user alone. *)
Lemma apiFetch_settles endpoint options st o rest :
  inbox st = o :: rest ->
  exists out st',
    apiFetch endpoint options st = (out, st')
    /\ out <> Pending
    /\ inbox st' = rest
    /\ currentUser st' = currentUser st.
Proof.
  intros H.
  assert (Hin : inbox (settled endpoint options st) = rest)
    by (cbn [inbox settled set_inbox]; rewrite H; reflexivity).
  assert (Herr : forall msg, inbox (errorShown msg (settled endpoint options st)) = rest)
    by (intros msg; exact Hin).
  destruct o as [msg | r].
  - rewrite (apiFetch_network _ _ _ _ _ H).
    do 2 eexists. repeat split; [discriminate | apply Herr].
  - destruct (ok r) eqn:Hok.
    + destruct (N.eq_dec (status r) 204) as [Hs | Hs].
      * rewrite (apiFetch_no_content _ _ _ _ _ H Hs).
        do 2 eexists. repeat split; [discriminate | exact Hin].
      * destruct (payload r) as [v | m] eqn:Hp.
        -- rewrite (apiFetch_parsed _ _ _ _ _ _ H Hok Hs Hp).
           do 2 eexists. repeat split; [discriminate | exact Hin].
        -- rewrite (apiFetch_unparseable _ _ _ _ _ _ H Hok Hs Hp).
           do 2 eexists. repeat split; [discriminate | apply Herr].
    + destruct (apiFetch_failed endpoint options st r rest H Hok) as [e He].
      rewrite He. do 2 eexists. repeat split; [discriminate | apply Herr].
Qed.

Lemma getProp_settles v k st :
  exists out, getProp v k st = (out, st) /\ out <> Pending.
Proof. destruct v; simpl; eexists; split; try reflexivity; discriminate. Qed.

(** The partner lookup always ends with a name once its request has an
    answer. *)
Lemma getPartnerUsername_settles uid st o rest :
  inbox st = o :: rest ->
  exists name st',
    getPartnerUsername uid st = (Returned name, st')
    /\ inbox st' = rest
    /\ currentUser st' = currentUser st.
Proof.
  intros H.
  destruct (apiFetch_settles ("/api/profile/" ++ toString uid) noOptions st o rest H)
    as (out & st' & Ha & Hn & Hi & Hu).
  unfold getPartnerUsername, try_catch.
  destruct out as [profile | e | ]; [| | congruence].
  - rewrite (bind_returned _ _ _ _ _ Ha).
    destruct (getProp_settles profile "username" st') as (out & Hg & Hgn).
    rewrite Hg. destruct out as [name | e | ]; [| | congruence];
      do 2 eexists; repeat split; eassumption.
  - rewrite (bind_thrown _ _ _ _ _ Ha).
    do 2 eexists. repeat split; eassumption.
Qed.

Lemma apiFetch_returns endpoint options st r rest :
  inbox st = Responds r :: rest -> returns_value r ->
  exists v, apiFetch endpoint options st = (Returned v, settled endpoint options st).
Proof.
  intros H [Hok Hr].
  destruct (N.eq_dec (status r) 204) as [Hs | Hs].
  - exists JNull. eapply apiFetch_no_content; eassumption.
  - destruct Hr as [Hr | [v Hv]]; [contradiction |].
    exists v. eapply apiFetch_parsed; eassumption.
Qed.

(** ** The send button *)

Lemma sendClick_nonempty (uid : JsVal) st messages value disabled :
  content st = ChatPage messages value disabled ->
  trim value <> "" ->
  sendClick uid st =
  (writeContent (ChatPage messages value true) ;;
   apiFetch ("/api/message/" ++ toString uid) (messagePost value) ;;
   detach (call PageChat [uid])) st.
Proof.
  intros Hc Ht. unfold sendClick.
  erewrite bind_returned by reflexivity. rewrite Hc.
  apply String.eqb_neq in Ht. rewrite Ht. reflexivity.
Qed.

(** C8. With a text that is not empty after trimming, the send handler
    first disables the input, then issues the POST: while the request is in
    flight the page shows the same messages with the input disabled.  When
    the POST succeeds the handler appends nothing itself but invokes
    [renderChat] anew, and once the partner lookup has settled and the
    conversation has arrived the page shows exactly the messages of that
    response, with a fresh input. *)
Theorem send_disables_then_reloads (uid : JsVal) st messages value disabled :
  content st = ChatPage messages value disabled ->
  trim value <> "" ->
  let endpoint := ("/api/message/" ++ toString uid)%string in
  let busy := run (writeContent (ChatPage messages value true)) st in
  (inbox st = [] ->
     sendClick uid st = (Pending, requested endpoint (messagePost value) busy))
  /\ content (requested endpoint (messagePost value) busy)
     = ChatPage messages value true
  /\ log (requested endpoint (messagePost value) busy)
     = log st ++ [ESetContent (ChatPage messages value true);
                  ERequest (apiBaseUrl ++ endpoint)
                           (requestInit (messagePost value) st)]
  /\ (forall r rest,
         inbox st = Responds r :: rest -> returns_value r ->
         sendClick uid st =
         (Returned tt,
          run (call PageChat [uid]) (settled endpoint (messagePost value) busy))
         /\ content (settled endpoint (messagePost value) busy)
            = ChatPage messages value true)
  /\ (forall r o rc rest fs ms bs,
         inbox st = Responds r :: o :: Responds rc :: rest ->
         returns_value r ->
         ok rc = true -> status rc <> 204%N ->
         payload rc = Parsed (JObj fs) -> lookup "messages" fs = Some (JArr ms) ->
         map (expectedBubble (currentUser st)) ms = map Some bs ->
         content (run (sendClick uid) st) = ChatPage (Some bs) "" false).
Proof.
  intros Hc Ht endpoint busy.
  pose proof (sendClick_nonempty uid st messages value disabled Hc Ht) as Hsend.
  assert (Hbusy : writeContent (ChatPage messages value true) st = (Returned tt, busy))
    by reflexivity.
  assert (Hdone : forall r rest,
             inbox st = Responds r :: rest -> returns_value r ->
             sendClick uid st =
             (Returned tt,
              run (call PageChat [uid]) (settled endpoint (messagePost value) busy))).
  { intros r rest Hi Hr.
    destruct (apiFetch_returns endpoint (messagePost value) busy r rest Hi Hr) as [v Hv].
    rewrite Hsend, (bind_returned _ _ _ _ _ Hbusy), (bind_returned _ _ _ _ _ Hv).
    reflexivity. }
  split; [| split; [| split; [| split]]].
  - intros Hi. rewrite Hsend, (bind_returned _ _ _ _ _ Hbusy).
    apply bind_pending. apply apiFetch_pending. exact Hi.
  - reflexivity.
  - unfold busy, requested, run, writeContent, modify. cbn.
    rewrite <- app_assoc. reflexivity.
  - intros r rest Hi Hr. split; [eapply Hdone; eassumption | reflexivity].
  - intros r o rc rest fs ms bs Hi Hr Hok Hs Hp Hm Hb.
    unfold run. rewrite (Hdone r _ Hi Hr). cbn [snd].
    set (s1 := settled endpoint (messagePost value) busy).
    assert (Hi1 : inbox (emit (ECall PageChat [uid]) s1) = o :: Responds rc :: rest).
    { unfold s1. cbn [inbox emit settled set_inbox requested busy run writeContent
                      modify snd set_content].
      rewrite Hi. reflexivity. }
    destruct (getPartnerUsername_settles uid _ o _ Hi1) as (name & s2 & Hg & Hi2 & Hu2).
    unfold run, call. erewrite bind_returned by reflexivity.
    cbn [nth]. rewrite renderChat_unfold, (bind_returned _ _ _ _ _ Hg).
    apply (chatAfterLookup_shows uid name s2 rc rest fs ms bs); try assumption.
    rewrite Hu2. exact Hb.
Qed.

Lemma send_disables_then_reloads_witness :
  let st := chatting " hi "
              [Responds noContent; Responds bobProfile; Responds (conversation oneMessage)] in
  content st = ChatPage (Some []) " hi " false
  /\ trim " hi " <> ""
  /\ sendClick (JStr "22222222") (chatting " hi " [])
     = (Pending,
        requested "/api/message/22222222" (messagePost " hi ")
                  (run (writeContent (ChatPage (Some []) " hi " true)) (chatting " hi " [])))
  /\ content (run (sendClick (JStr "22222222")) st)
     = ChatPage (Some [{| isSent := true; bubbleText := "hi" |}]) "" false.
Proof.
  intros st.
  assert (Ht : trim " hi " <> "") by discriminate.
  split; [reflexivity | split; [exact Ht | split]].
  - apply (proj1 (send_disables_then_reloads (JStr "22222222") (chatting " hi " [])
                    (Some []) " hi " false eq_refl Ht)).
    reflexivity.
  - apply (proj2 (proj2 (proj2 (proj2
             (send_disables_then_reloads (JStr "22222222") st
                (Some []) " hi " false eq_refl Ht))))
             noContent (Responds bobProfile) (conversation oneMessage) []
             [("messages", JArr oneMessage)] oneMessage);
      try reflexivity; try discriminate.
    split; [reflexivity | left; reflexivity].
Defined.

Lemma trim_allWhiteSpace s : allWhiteSpace s = true -> trim s = "".
Proof.
  unfold trim. induction s as [| c s IH]; simpl; [reflexivity |].
  intros H. apply andb_prop in H as [Hc Hs]. rewrite Hc. apply IH, Hs.
Qed.

(** C10. When the text of the message input is empty or white space only,
    a click on send changes nothing: no request, no write to the page, no
    page function invoked; the handler returns with the state it found. *)
Theorem send_blank_is_noop (uid : JsVal) st messages value disabled :
  content st = ChatPage messages value disabled ->
  allWhiteSpace value = true ->
  sendClick uid st = (Returned tt, st).
Proof.
  intros Hc Hw. unfold sendClick.
  erewrite bind_returned by reflexivity.
  rewrite Hc, (trim_allWhiteSpace value Hw). reflexivity.
Qed.

Lemma send_blank_is_noop_witness :
  content (chatting "   " [Responds noContent]) = ChatPage (Some []) "   " false
  /\ allWhiteSpace "   " = true
  /\ sendClick (JStr "22222222") (chatting "   " [Responds noContent])
     = (Returned tt, chatting "   " [Responds noContent]).
Proof.
  split; [reflexivity | split; [reflexivity |]].
  exact (send_blank_is_noop (JStr "22222222") (chatting "   " [Responds noContent])
           (Some []) "   " false eq_refl eq_refl).
Defined.

(** ** Re-rendering in place *)

Ltac same_stack_frame :=
  first [ reflexivity
        | intros; unfold same_stack in *; congruence
        | intros; reflexivity ].

(** C9. The handlers that re-render in place (the send button of the chat,
    the action buttons of the profile, the accept, decline and cancel
    buttons of the requests view) leave the navigation stack exactly as it
    was, whatever the clicked element and whatever the server answers: they
    invoke the page function itself, not [navigateTo]. *)
Theorem in_place_rerender_keeps_stack :
  (forall uid st,
      navigationStack (run (sendClick uid) st) = navigationStack st)
  /\ (forall targetUid target st,
         navigationStack (run (profileActionClick targetUid target) st)
         = navigationStack st)
  /\ (forall target st,
         navigationStack (run (requestsClick target) st) = navigationStack st).
Proof.
  repeat split; intros.
  - apply (respects_sendClick same_stack); same_stack_frame.
  - apply (respects_profileActionClick same_stack); same_stack_frame.
  - apply (respects_requestsClick same_stack); same_stack_frame.
Qed.

(** A successful action on the profile calls [renderProfile] directly. *)
Lemma profileActionClick_rerenders targetUid st a uid' r rest :
  inbox st = Responds r :: rest -> returns_value r ->
  exists endpoint,
    profileActionClick targetUid
      {| tagName := "BUTTON"; dataset_action := Some a; dataset_uid := uid' |} st
    = (Returned tt,
       run (call PageProfile [targetUid])
           (run (showAlert ("Action '" ++ replace "_" " " a ++ "' was successful!"))
                (settled endpoint (POST None) st))).
Proof.
  intros Hi Hr. unfold profileActionClick.
  cbn [tagName dataset_action String.eqb Ascii.eqb Bool.eqb].
  destruct (same_text (Some a) (Some "add_friend")).
  - destruct (apiFetch_returns ("/api/friend_request/" ++ toString targetUid)
                (POST None) st r rest Hi Hr) as [v Hv].
    eexists. rewrite (bind_returned _ _ _ _ _ Hv).
    erewrite bind_returned by reflexivity.
    rewrite (bind_returned _ _ _ _ _ (eq_refl : showAlert _ _ = (Returned tt, _))).
    unfold detach, run, showAlert, modify. cbn [snd]. reflexivity.
  - destruct (apiFetch_returns
                ("/api/action/" ++ interpolate (Some a) ++ "/" ++ toString targetUid)
                (POST None) st r rest Hi Hr) as [v Hv].
    eexists. rewrite (bind_returned _ _ _ _ _ Hv).
    erewrite bind_returned by reflexivity.
    rewrite (bind_returned _ _ _ _ _ (eq_refl : showAlert _ _ = (Returned tt, _))).
    unfold detach, run, showAlert, modify. cbn [snd]. reflexivity.
Qed.

(** A successful action on the requests view calls [renderRequests]
    directly. *)
Lemma requestsClick_rerenders st a uid' r rest :
  a <> "" ->
  inbox st = Responds r :: rest -> returns_value r ->
  requestsClick {| tagName := "BUTTON"; dataset_action := Some a; dataset_uid := uid' |} st
  = (Returned tt,
     run (call PageRequests [])
         (run (showAlert "Request updated!")
              (settled ("/api/action/" ++ a ++ "/" ++ interpolate uid') (POST None) st))).
Proof.
  intros Ha Hi Hr. unfold requestsClick.
  cbn [tagName dataset_action dataset_uid nonEmpty String.eqb Ascii.eqb Bool.eqb andb].
  apply String.eqb_neq in Ha. rewrite Ha. cbn [negb interpolate].
  destruct (apiFetch_returns ("/api/action/" ++ a ++ "/" ++ interpolate uid')
              (POST None) st r rest Hi Hr) as [v Hv].
  rewrite (bind_returned _ _ _ _ _ Hv).
  rewrite (bind_returned _ _ _ _ _ (eq_refl : showAlert _ _ = (Returned tt, _))).
  unfold detach, run, showAlert, modify. cbn [snd]. reflexivity.
Qed.

(** ** The search action *)

Lemma digit_not_white c : isDigit c = true -> isWhiteSpace c = false.
Proof.
  destruct c as [[] [] [] [] [] [] [] []]; intros H; try reflexivity; discriminate H.
Qed.

Lemma test_digits_spec n : forall s,
  test_digits n s = true <->
  String.length s = n /\ forall c, In c (list_ascii_of_string s) -> isDigit c = true.
Proof.
  induction n as [| n IH]; intros [| c s]; simpl; split;
    try (intros H; discriminate H); try (intros [H _]; discriminate H).
  - intros _. split; [reflexivity | intros c []].
  - reflexivity.
  - intros H. apply andb_prop in H as [Hc Hs]. apply IH in Hs as [Hl Hd].
    split; [congruence |]. intros c' [<- | Hin]; auto.
  - intros [Hl Hd]. apply andb_true_intro. split.
    + apply Hd. left. reflexivity.
    + apply IH. split; [congruence |]. intros c' Hin. apply Hd. right. exact Hin.
Qed.

Lemma trimEnd_digits n : forall s, test_digits n s = true -> trimEnd s = s.
Proof.
  induction n as [| n IH]; intros [| c s] H; try discriminate H; [reflexivity |].
  simpl in H. apply andb_prop in H as [Hc Hs].
  simpl. rewrite (IH s Hs), (digit_not_white c Hc). destruct s; reflexivity.
Qed.

Lemma trim_digits n s : test_digits n s = true -> trim s = s.
Proof.
  intros H. unfold trim.
  assert (Hs : trimStart s = s).
  { destruct n, s as [| c s]; try discriminate H; [reflexivity |].
    simpl in H. apply andb_prop in H as [Hc _].
    simpl. rewrite (digit_not_white c Hc). reflexivity. }
  rewrite Hs. apply (trimEnd_digits n s H).
Qed.

Lemma alerts_app l1 l2 : alerts (l1 ++ l2) = alerts l1 ++ alerts l2.
Proof. apply filter_app. Qed.

Lemma navigateTo_no_alert f args st :
  alerts (log (run (navigateTo f args) st)) = alerts (log st).
Proof.
  unfold run.
  destruct (same_page (tail_entry (navigationStack st)) f args) eqn:E.
  - rewrite navigateTo_guarded by exact E. reflexivity.
  - rewrite navigateTo_fresh by exact E. cbn [snd].
    destruct (call_spec f args
                (set_navigationStack (navigationStack st ++ [{| func := f; args := args |}]) st))
      as [_ (rest & Hl & Hq)].
    rewrite Hl. cbn [log set_navigationStack]. rewrite alerts_app.
    unfold alerts at 2. cbn [filter is_alert].
    fold (alerts rest). unfold alerts at 2.
    rewrite (page_events_no_alerts rest Hq). apply app_nil_r.
Qed.

(** C5. The search action sorts what the user typed into three cases.
    Exactly eight digits: it navigates to the profile of that identifier
    (pushing the entry unless it is already on top) and shows no alert.
    Anything else that is not empty: it shows the validation alert and
    does not navigate.  Empty or cancelled: neither. *)
Theorem search_partitions_input (buttonId : option string) (st : App) :
  (forall u,
      exactly_8_digits u ->
      handleSearch buttonId (Some u) st = navigateTo PageProfile [JStr u] (asked st)
      /\ alerts (log (run (handleSearch buttonId (Some u)) st)) = alerts (log st)
      /\ (same_page (tail_entry (navigationStack st)) PageProfile [JStr u] = false ->
          navigationStack (run (handleSearch buttonId (Some u)) st)
          = navigationStack st ++ [{| func := PageProfile; args := [JStr u] |}]))
  /\ (forall u,
         u <> "" -> ~ exactly_8_digits u ->
         handleSearch buttonId (Some u) st
         = (Returned tt, emit (EShowAlert invalidUid) (asked st)))
  /\ (forall uid,
         uid = None \/ uid = Some "" ->
         handleSearch buttonId uid st = (Returned tt, asked st)).
Proof.
  split; [| split].
  - intros u Hu. apply (test_digits_spec 8 u) in Hu.
    assert (Hne : nonEmpty (Some u) = true).
    { destruct u; [discriminate Hu | reflexivity]. }
    assert (Hh : handleSearch buttonId (Some u) st
                 = navigateTo PageProfile [JStr u] (asked st)).
    { unfold handleSearch.
      erewrite bind_returned by reflexivity.
      erewrite bind_returned by reflexivity.
      rewrite Hne, Hu, (trim_digits 8 u Hu). reflexivity. }
    split; [exact Hh |]. unfold run. rewrite Hh. split.
    + fold (run (navigateTo PageProfile [JStr u]) (asked st)).
      rewrite navigateTo_no_alert. unfold asked. cbn [log emit].
      rewrite !alerts_app. cbn. rewrite !app_nil_r. reflexivity.
    + intros Hfresh.
      rewrite navigateTo_fresh by exact Hfresh. cbn [snd].
      rewrite call_keeps_stack. reflexivity.
  - intros u Hne Hu. unfold handleSearch.
    erewrite bind_returned by reflexivity.
    erewrite bind_returned by reflexivity.
    assert (Ht : test_digits 8 u = false).
    { destruct (test_digits 8 u) eqn:E; [| reflexivity].
      exfalso. apply Hu. apply (test_digits_spec 8 u). exact E. }
    apply String.eqb_neq in Hne. cbn [nonEmpty]. rewrite Hne, Ht. reflexivity.
  - intros uid [-> | ->]; reflexivity.
Qed.

Lemma search_partitions_input_witness :
  (exactly_8_digits "12345678"
   /\ handleSearch (Some "search") (Some "12345678") started
      = navigateTo PageProfile [JStr "12345678"] (asked started))
  /\ ("1234" <> "" /\ ~ exactly_8_digits "1234"
      /\ handleSearch (Some "search") (Some "1234") started
         = (Returned tt, emit (EShowAlert invalidUid) (asked started)))
  /\ handleSearch None None started = (Returned tt, asked started).
Proof.
  pose proof (search_partitions_input (Some "search") started) as (Hvalid & Hinvalid & _).
  assert (H8 : exactly_8_digits "12345678").
  { split; [reflexivity |]. intros c Hin. simpl in Hin.
    repeat (destruct Hin as [<- | Hin]; [reflexivity |]). destruct Hin. }
  assert (H4 : ~ exactly_8_digits "1234") by (intros [Hl _]; discriminate Hl).
  assert (Hne : "1234" <> "") by discriminate.
  split; [split; [exact H8 | exact (proj1 (Hvalid "12345678" H8))] | split].
  - split; [exact Hne | split; [exact H4 | exact (Hinvalid "1234" Hne H4)]].
  - apply (proj2 (proj2 (search_partitions_input None started))). left. reflexivity.
Defined.

(* ================================================================== *)
(** * Further properties of the code *)

(** ** The guard of [navigateTo] on the arguments the program passes *)

Lemma append_assoc' (a b c : string) : ((a ++ b) ++ c = a ++ (b ++ c))%string.
Proof. induction a as [| x a IH]; simpl; [reflexivity | rewrite IH; reflexivity]. Qed.

Lemma unquote_quoteChar c r :
  unquoteBody (quoteChar c ++ r) = String c (unquoteBody r).
Proof. destruct c as [[] [] [] [] [] [] [] []]; reflexivity. Qed.

Lemma unquote_quoteBody s r : unquoteBody (quoteBody s ++ String dquote r) = s.
Proof.
  induction s as [| c s IH]; simpl.
  - reflexivity.
  - rewrite append_assoc', unquote_quoteChar, IH. reflexivity.
Qed.

Lemma quote_followed_inj a b r :
  (quote a ++ r = quote b ++ r)%string -> a = b.
Proof.
  unfold quote, str. cbn [append]. intros H.
  injection H as H.
  rewrite !append_assoc' in H. cbn [append] in H.
  apply (f_equal unquoteBody) in H. rewrite !unquote_quoteBody in H. exact H.
Qed.

Lemma PageFunction_eqb_eq f g : PageFunction_eqb f g = true -> f = g.
Proof. destruct f, g; simpl; intros H; try reflexivity; discriminate H. Qed.

Lemma same_page_uid f a g b :
  same_page (Some {| func := f; args := [JStr a] |}) g [JStr b] = true ->
  f = g /\ a = b.
Proof.
  unfold same_page. cbn [func args]. intros H.
  apply andb_prop in H as [Hf Ht]. split; [apply PageFunction_eqb_eq, Hf |].
  change (("[" ++ quote a ++ "]" =? "[" ++ quote b ++ "]")%string = true) in Ht.
  apply String.eqb_eq in Ht. cbn [append] in Ht. injection Ht as Ht.
  apply (quote_followed_inj a b "]"). unfold quote. cbn [append].
  rewrite Ht. reflexivity.
Qed.

(** X1. On the arguments the program passes (one identifier string), the
    guard of [navigateTo] is exact: with the page of user [a] on top,
    navigating to another page function, or to the same one for another
    identifier, always pushes the new entry. *)
Theorem navigateTo_other_user_pushes st stack f a g b :
  navigationStack st = stack ++ [{| func := f; args := [JStr a] |}] ->
  f <> g \/ a <> b ->
  navigationStack (run (navigateTo g [JStr b]) st)
  = navigationStack st ++ [{| func := g; args := [JStr b] |}]
  /\ exists rest,
      log (run (navigateTo g [JStr b]) st) = log st ++ ECall g [JStr b] :: rest.
Proof.
  intros Hst Hne.
  assert (Hfresh : same_page (tail_entry (navigationStack st)) g [JStr b] = false).
  { rewrite Hst, tail_entry_push.
    destruct (same_page (Some {| func := f; args := [JStr a] |}) g [JStr b]) eqn:E;
      [| reflexivity].
    apply same_page_uid in E as [Hf Ha]. destruct Hne; contradiction. }
  unfold run. rewrite navigateTo_fresh by exact Hfresh. cbn [snd].
  destruct (call_spec g [JStr b]
              (set_navigationStack
                 (navigationStack st ++ [{| func := g; args := [JStr b] |}]) st))
    as [Hs (rest & Hl & _)].
  split; [exact Hs | exists rest; exact Hl].
Qed.

Lemma navigateTo_other_user_pushes_witness :
  let st := run (navigateTo PageChat [JStr "22222222"]) started in
  navigationStack st
  = [mainMenuEntry] ++ [{| func := PageChat; args := [JStr "22222222"] |}]
  /\ (PageChat <> PageChat \/ "22222222" <> "33333333")
  /\ navigationStack (run (navigateTo PageChat [JStr "33333333"]) st)
     = navigationStack st ++ [{| func := PageChat; args := [JStr "33333333"] |}].
Proof.
  intros st.
  assert (Hne : PageChat <> PageChat \/ "22222222" <> "33333333")
    by (right; discriminate).
  split; [reflexivity | split; [exact Hne |]].
  exact (proj1 (navigateTo_other_user_pushes st [mainMenuEntry] PageChat "22222222"
                  PageChat "33333333" eq_refl Hne)).
Defined.

(** ** Going back *)

Lemma goBack_pops st stack p e :
  navigationStack st = stack ++ [p; e] ->
  goBack st =
  (Returned tt,
   run (call (func p) (args p)) (set_navigationStack (stack ++ [p]) st)).
Proof.
  intros Hst.
  assert (Hr : removelast (navigationStack st) = stack ++ [p]).
  { rewrite Hst. change [p; e] with ([p] ++ [e]).
    rewrite app_assoc. apply removelast_last. }
  rewrite (goBack_tail st p); rewrite Hr; [reflexivity | apply tail_entry_push].
Qed.

(** X2. With at least two entries on the stack, [goBack] removes exactly
    the last one and invokes the page function of the entry below it, once,
    with the arguments stored in that entry. *)
Theorem goBack_reinvokes_previous st stack p e :
  navigationStack st = stack ++ [p; e] ->
  navigationStack (run goBack st) = stack ++ [p]
  /\ exists rest,
      log (run goBack st) = log st ++ ECall (func p) (args p) :: rest
      /\ page_calls rest = 0.
Proof.
  intros Hst. unfold run. rewrite (goBack_pops st stack p e Hst). cbn [snd].
  destruct (call_spec (func p) (args p) (set_navigationStack (stack ++ [p]) st))
    as [Hs (rest & Hl & Hq)].
  split; [exact Hs |]. exists rest. split; [exact Hl | apply page_events_no_calls, Hq].
Qed.

Lemma goBack_reinvokes_previous_witness :
  let st := run (navigateTo PageChat [JStr "22222222"])
                (run (navigateTo PageChatList []) started) in
  navigationStack st
  = [mainMenuEntry] ++ [{| func := PageChatList; args := [] |};
                        {| func := PageChat; args := [JStr "22222222"] |}]
  /\ navigationStack (run goBack st)
     = [mainMenuEntry] ++ [{| func := PageChatList; args := [] |}].
Proof.
  intros st. split; [reflexivity |].
  exact (proj1 (goBack_reinvokes_previous st [mainMenuEntry]
                  {| func := PageChatList; args := [] |}
                  {| func := PageChat; args := [JStr "22222222"] |} eq_refl)).
Defined.

(** X3. A navigation that pushed, followed by [goBack], gives back the
    stack it started from, and [goBack] re-invokes the page that was on top
    before the navigation. *)
Theorem navigateTo_then_goBack st f actuals t :
  tail_entry (navigationStack st) = Some t ->
  same_page (Some t) f actuals = false ->
  navigationStack (run goBack (run (navigateTo f actuals) st)) = navigationStack st
  /\ exists rest,
      log (run goBack (run (navigateTo f actuals) st))
      = log (run (navigateTo f actuals) st) ++ ECall (func t) (args t) :: rest.
Proof.
  intros Ht Hfresh.
  assert (Hstack : exists stack, navigationStack st = stack ++ [t]).
  { destruct (navigationStack st) as [| x l] eqn:E; [discriminate Ht |].
    destruct (exists_last (l := x :: l)) as (stack & t' & Hl); [discriminate |].
    exists stack. rewrite Hl in Ht |- *. rewrite tail_entry_push in Ht.
    injection Ht as ->. reflexivity. }
  destruct Hstack as [stack Hstack].
  assert (H1 : navigationStack (run (navigateTo f actuals) st)
               = stack ++ [t; {| func := f; args := actuals |}]).
  { unfold run. rewrite navigateTo_fresh by (rewrite Ht; exact Hfresh). cbn [snd].
    rewrite call_keeps_stack. cbn [navigationStack set_navigationStack].
    rewrite Hstack, <- app_assoc. reflexivity. }
  unfold run at 1 3. rewrite (goBack_pops _ stack t _ H1). cbn [snd].
  destruct (call_spec (func t) (args t)
              (set_navigationStack (stack ++ [t]) (run (navigateTo f actuals) st)))
    as [Hs (rest & Hl & _)].
  split.
  - rewrite Hs. cbn [navigationStack set_navigationStack]. symmetry. exact Hstack.
  - exists rest. exact Hl.
Qed.

Lemma navigateTo_then_goBack_witness :
  tail_entry (navigationStack started) = Some mainMenuEntry
  /\ same_page (Some mainMenuEntry) PageFriendsList [] = false
  /\ navigationStack (run goBack (run (navigateTo PageFriendsList []) started))
     = navigationStack started.
Proof.
  split; [reflexivity | split; [reflexivity |]].
  exact (proj1 (navigateTo_then_goBack started PageFriendsList [] mainMenuEntry
                  eq_refl eq_refl)).
Defined.

(** ** Neighbouring entries *)

Lemma tail_entry_cons x y l : tail_entry (x :: y :: l) = tail_entry (y :: l).
Proof.
  unfold tail_entry. simpl.
  destruct (rev l ++ [y]) as [| z r] eqn:E; [| reflexivity].
  destruct (rev l); discriminate E.
Qed.

Lemma distinct_neighbours_push stack e :
  distinct_neighbours (stack ++ [e])
  = distinct_neighbours stack
    && negb (same_page (tail_entry stack) (func e) (args e)).
Proof.
  induction stack as [| x l IH]; [reflexivity |].
  destruct l as [| y l].
  - cbn. rewrite andb_true_r. reflexivity.
  - rewrite tail_entry_cons. change ((x :: y :: l) ++ [e]) with (x :: (y :: l) ++ [e]).
    change (distinct_neighbours (x :: (y :: l) ++ [e]))
      with (negb (same_page (Some x) (func y) (args y))
            && distinct_neighbours ((y :: l) ++ [e])).
    rewrite IH. cbn [distinct_neighbours]. rewrite andb_assoc. reflexivity.
Qed.

Lemma distinct_neighbours_pop stack :
  distinct_neighbours stack = true -> distinct_neighbours (removelast stack) = true.
Proof.
  induction stack as [| x l IH]; [reflexivity |].
  destruct l as [| y l]; [reflexivity |].
  intros H. cbn [distinct_neighbours] in H. apply andb_prop in H as [Hxy Hl].
  specialize (IH Hl).
  change (removelast (x :: y :: l)) with (x :: removelast (y :: l)).
  destruct l as [| z l]; [reflexivity |].
  change (removelast (y :: z :: l)) with (y :: removelast (z :: l)) in *.
  cbn [distinct_neighbours]. rewrite Hxy. exact IH.
Qed.

Lemma perform_distinct op st :
  distinct_neighbours (navigationStack st) = true ->
  distinct_neighbours (navigationStack (run (perform op) st)) = true.
Proof.
  intros H. destruct op as [f actuals | | o]; cbn [perform]; unfold run.
  - destruct (same_page (tail_entry (navigationStack st)) f actuals) eqn:E.
    + rewrite navigateTo_guarded by exact E. exact H.
    + rewrite navigateTo_fresh by exact E. cbn [snd]. rewrite call_keeps_stack.
      cbn [navigationStack set_navigationStack].
      rewrite distinct_neighbours_push. cbn [func args]. rewrite H, E. reflexivity.
  - destruct (tail_entry (removelast (navigationStack st))) as [e |] eqn:E.
    + rewrite (goBack_tail st e E). cbn [snd]. rewrite call_keeps_stack.
      apply distinct_neighbours_pop, H.
    + rewrite (goBack_fallback st E).
      rewrite navigateTo_fresh
        by (cbn [navigationStack set_navigationStack]; rewrite E; reflexivity).
      cbn [snd]. rewrite call_keeps_stack. cbn [navigationStack set_navigationStack].
      rewrite (tail_entry_none _ E). reflexivity.
  - exact H.
Qed.

(** X4. After startup, whatever sequence of [navigateTo] and [goBack]
    calls follows, no entry of the navigation stack equals (for the guard:
    same page function, same serialised arguments) the entry just below
    it. *)
Theorem stack_has_no_repeated_neighbours init responses ops :
  distinct_neighbours
    (navigationStack
       (performAll ops (run (DOMContentLoaded true) (initialApp init responses))))
  = true.
Proof.
  assert (H : forall ops st,
             distinct_neighbours (navigationStack st) = true ->
             distinct_neighbours (navigationStack (performAll ops st)) = true).
  { clear ops. intros ops. induction ops as [| op ops IH]; intros st Hst; simpl.
    - exact Hst.
    - apply IH, perform_distinct, Hst. }
  apply H. rewrite startup_stack. reflexivity.
Qed.

(** ** One request per call *)

(** The three ways a call of [apiFetch] can end. *)
Lemma apiFetch_cases endpoint options st :
  (inbox st = [] /\ apiFetch endpoint options st = (Pending, requested endpoint options st))
  \/ (exists v, apiFetch endpoint options st = (Returned v, settled endpoint options st))
  \/ (exists e, apiFetch endpoint options st
                = (Thrown e, errorShown (message e) (settled endpoint options st))).
Proof.
  destruct (inbox st) as [| [msg | r] rest] eqn:H.
  - left. split; [reflexivity | apply apiFetch_pending, H].
  - right. right. exists {| kind := TypeError; message := msg |}.
    apply (apiFetch_network _ _ _ _ _ H).
  - right. destruct (ok r) eqn:Hok.
    + destruct (N.eq_dec (status r) 204) as [Hs | Hs].
      * left. exists JNull. eapply apiFetch_no_content; eassumption.
      * destruct (payload r) as [v | m] eqn:Hp.
        -- left. exists v. eapply apiFetch_parsed; eassumption.
        -- right. exists {| kind := SyntaxError; message := m |}.
           apply (apiFetch_unparseable _ _ _ _ _ _ H Hok Hs Hp).
    + right. apply (apiFetch_failed endpoint options st r rest H Hok).
Qed.

Lemma header_value_assign k k' v o :
  header_value k (assign k' v o) = if k' =? k then Some v else header_value k o.
Proof.
  induction o as [| [k0 v0] rest IH]; simpl; [reflexivity |].
  destruct (k0 =? k') eqn:E0; simpl.
  - apply String.eqb_eq in E0. subst k0. destruct (k' =? k); reflexivity.
  - rewrite IH. destruct (k0 =? k) eqn:E1; [| reflexivity].
    apply String.eqb_eq in E1. subst k0. rewrite String.eqb_sym, E0. reflexivity.
Qed.

Lemma header_value_app k l1 l2 :
  header_value k (l1 ++ l2)
  = match header_value k l1 with Some v => Some v | None => header_value k l2 end.
Proof.
  induction l1 as [| [k0 v0] l1 IH]; simpl; [reflexivity |].
  destruct (k0 =? k); [reflexivity | exact IH].
Qed.

(** In [{ ...base, ...extra }] a name holds the last value [extra] gives
    it, and its value in [base] when [extra] does not name it. *)
Lemma header_value_spread k extra : forall base,
  header_value k (spread base extra)
  = match last_value k extra with Some v => Some v | None => header_value k base end.
Proof.
  unfold spread, last_value.
  induction extra as [| [k' v'] extra IH]; intros base; simpl; [reflexivity |].
  rewrite IH, header_value_app, header_value_assign. simpl.
  destruct (header_value k (rev extra)); [reflexivity |].
  destruct (k' =? k); reflexivity.
Qed.

(** X5. Whatever the outcome, one call of [apiFetch] sends exactly one
    request (there is no retry), to the base URL followed by the endpoint,
    with the caller's method and body.  Its [X-Telegram-Init-Data] header is
    [tg.initData] and its [Content-Type] is [application/json], unless the
    caller's own headers name them, in which case the caller's value wins. *)
Theorem apiFetch_sends_one_request endpoint options st :
  (exists rest,
      log (run (apiFetch endpoint options) st)
      = log st ++ ERequest (apiBaseUrl ++ endpoint) (requestInit options st) :: rest
      /\ requests rest = [])
  /\ method (requestInit options st) = method options
  /\ body (requestInit options st) = body options
  /\ header_value "X-Telegram-Init-Data" (headers (requestInit options st))
     = match last_value "X-Telegram-Init-Data" (headers options) with
       | Some v => Some v
       | None => Some (initData st)
       end
  /\ header_value "Content-Type" (headers (requestInit options st))
     = match last_value "Content-Type" (headers options) with
       | Some v => Some v
       | None => Some "application/json"
       end.
Proof.
  split; [| split; [reflexivity | split; [reflexivity | split]]].
  - unfold run.
    destruct (apiFetch_cases endpoint options st) as [[_ H] | [[v H] | [e H]]];
      rewrite H; cbn [snd].
    + exists []. split; reflexivity.
    + exists []. split; reflexivity.
    + exists [ESetHeader errorHeader; ESetContent (ErrorPage "API Error" (message e))].
      split; [| reflexivity].
      rewrite (proj1 (proj2 (proj2 (errorShown_spec _ _)))).
      cbn [log settled set_inbox requested emit]. rewrite <- app_assoc. reflexivity.
  - unfold requestInit. cbn [headers]. rewrite header_value_spread. reflexivity.
  - unfold requestInit. cbn [headers]. rewrite header_value_spread. reflexivity.
Qed.

(** X6. [apiFetch] draws on the page exactly when it throws: a call that
    returns or is still pending leaves header and content as they were, a
    call that throws (non-success status, rejected fetch, body that is not
    JSON) leaves the error page with the thrown message.  In no case does it
    touch the navigation stack or the session user. *)
Theorem apiFetch_draws_only_errors endpoint options st out st' :
  apiFetch endpoint options st = (out, st') ->
  navigationStack st' = navigationStack st
  /\ currentUser st' = currentUser st
  /\ match out with
     | Thrown e =>
         header st' = errorHeader /\ content st' = ErrorPage "API Error" (message e)
     | _ => header st' = header st /\ content st' = content st
     end.
Proof.
  intros H.
  destruct (apiFetch_cases endpoint options st) as [[_ H'] | [[v H'] | [e H']]];
    rewrite H' in H; injection H as <- <-; repeat split.
Qed.

Lemma apiFetch_draws_only_errors_witness :
  let st := chatting "" [NetworkError "Failed to fetch"] in
  apiFetch "/api/friends" noOptions st
  = (Thrown {| kind := TypeError; message := "Failed to fetch" |},
     errorShown "Failed to fetch" (settled "/api/friends" noOptions st))
  /\ content (errorShown "Failed to fetch" (settled "/api/friends" noOptions st))
     = ErrorPage "API Error" "Failed to fetch"
  /\ navigationStack (errorShown "Failed to fetch" (settled "/api/friends" noOptions st))
     = navigationStack st.
Proof.
  intros st.
  pose proof (apiFetch_draws_only_errors "/api/friends" noOptions st _ _ eq_refl)
    as (Hs & _ & _ & Hc).
  split; [reflexivity | split; [exact Hc | exact Hs]].
Defined.

(** ** What the list views show *)

Lemma decimal_zero n : decimal n = "0" -> n = 0%N.
Proof.
  unfold decimal. intros H.
  assert (Hu : N.to_uint n = Decimal.D0 Decimal.Nil).
  { apply (f_equal NilEmpty.uint_of_string) in H.
    rewrite NilEmpty.usu in H. simpl in H. injection H as H. exact H. }
  apply (f_equal N.of_uint) in Hu. rewrite DecimalN.Unsigned.of_to in Hu. exact Hu.
Qed.

(** [l.length === 0] holds for the empty array only. *)
Lemma length_is_zero (l : list JsVal) :
  strict_eq (JNum (decimal (N.of_nat (List.length l)))) (JNum "0")
  = match l with [] => true | _ => false end.
Proof.
  destruct l as [| x l]; [reflexivity |].
  unfold strict_eq.
  destruct (decimal (N.of_nat (List.length (x :: l))) =? "0")%string eqn:E;
    [| reflexivity].
  apply String.eqb_eq, decimal_zero in E. discriminate E.
Qed.

Lemma mapM_returns {A B} (f : A -> M B) (g : A -> option B) st :
  (forall x y, g x = Some y -> f x st = (Returned y, st)) ->
  forall l ys, map g l = map Some ys -> mapM f l st = (Returned ys, st).
Proof.
  intros Hf. induction l as [| x l IH]; intros [| y ys] H; try discriminate H.
  - reflexivity.
  - simpl in H. injection H as Hx Hl. cbn [mapM].
    rewrite (bind_returned _ _ _ _ _ (Hf x y Hx)).
    rewrite (bind_returned _ _ _ _ _ (IH ys Hl)). reflexivity.
Qed.

Lemma chatItem_returns st chat item :
  chatRow chat = Some item -> chatItem chat st = (Returned item, st).
Proof.
  destruct chat; try discriminate. intros H. injection H as <-. reflexivity.
Qed.

Lemma friendItem_returns st friend item :
  friendRow friend = Some item -> friendItem friend st = (Returned item, st).
Proof.
  destruct friend; try discriminate. intros H. injection H as <-. reflexivity.
Qed.

(** X7. When the conversations arrive as an array, the chat list shows the
    explanatory paragraph for the empty array and never an empty container;
    for a non-empty array of objects it shows one row per conversation, in
    the server's order, with [Unknown User] and [...] standing in for a
    missing or empty partner name and last message. *)
Theorem renderChatList_shows st r rest chats :
  inbox st = Responds r :: rest ->
  ok r = true -> status r <> 204%N ->
  payload r = Parsed (JArr chats) ->
  (chats = [] ->
     result renderChatList st = Returned tt
     /\ content (run renderChatList st)
        = ChatListPage (Placeholder "You have no message history yet."))
  /\ (forall items,
         chats <> [] -> map chatRow chats = map Some items ->
         result renderChatList st = Returned tt
         /\ content (run renderChatList st) = ChatListPage (Items items)
         /\ List.length items = List.length chats).
Proof.
  intros H Hok Hs Hp.
  assert (Hfetch : forall s, inbox s = inbox st ->
            apiFetch "/api/chats" noOptions s
            = (Returned (JArr chats), settled "/api/chats" noOptions s)).
  { intros s Hi. rewrite H in Hi. eapply apiFetch_parsed; eassumption. }
  split.
  - intros ->. unfold result, run, renderChatList, renderLoading.
    erewrite bind_returned by reflexivity.
    erewrite bind_returned by reflexivity.
    erewrite bind_returned by (apply Hfetch; reflexivity).
    split; reflexivity.
  - intros items Hne Hrows.
    assert (Hlen : strict_eq (JNum (decimal (N.of_nat (List.length chats)))) (JNum "0")
                   = false).
    { rewrite length_is_zero. destruct chats; [contradiction | reflexivity]. }
    assert (Hrun : exists s', renderChatList st
                     = (Returned tt, run (render (ChatListPage (Items items))) s')).
    { unfold renderChatList, renderLoading.
      erewrite bind_returned by reflexivity.
      erewrite bind_returned by reflexivity.
      erewrite bind_returned by (apply Hfetch; reflexivity).
      erewrite bind_returned by reflexivity.
      cbn [String.eqb Ascii.eqb Bool.eqb]. rewrite Hlen.
      erewrite bind_returned.
      2:{ erewrite bind_returned
            by (cbn [array_map]; apply (mapM_returns chatItem chatRow);
                [intros; apply chatItem_returns; assumption | exact Hrows]).
          reflexivity. }
      eexists. reflexivity. }
    destruct Hrun as [s' Hrun]. unfold result, run at 1. rewrite Hrun.
    repeat split.
    apply (f_equal (@List.length _)) in Hrows. rewrite !length_map in Hrows.
    symmetry. exact Hrows.
Qed.

Lemma renderChatList_shows_witness :
  let none := {| status := 200; payload := Parsed (JArr []) |} in
  let one := {| status := 200;
                payload := Parsed (JArr [JObj [("partner_uid", JStr "22222222")]]) |} in
  (inbox (initialApp "proof" [Responds none]) = [Responds none]
   /\ ok none = true /\ status none <> 204%N
   /\ content (run renderChatList (initialApp "proof" [Responds none]))
      = ChatListPage (Placeholder "You have no message history yet."))
  /\ (inbox (initialApp "proof" [Responds one]) = [Responds one]
      /\ content (run renderChatList (initialApp "proof" [Responds one]))
         = ChatListPage (Items [{| chat_uid := "22222222"; chat_main := "Unknown User";
                                   chat_sub := "..."; chat_unread := JUndefined |}])).
Proof.
  intros none one.
  assert (Hnone : status none <> 204%N) by discriminate.
  assert (Hone : status one <> 204%N) by discriminate.
  split.
  - split; [reflexivity | split; [reflexivity | split; [exact Hnone |]]].
    exact (proj2 (proj1 (renderChatList_shows (initialApp "proof" [Responds none])
                           none [] [] eq_refl eq_refl Hnone eq_refl) eq_refl)).
  - split; [reflexivity |].
    refine (proj1 (proj2 (proj2 (renderChatList_shows (initialApp "proof" [Responds one])
                           one [] _ eq_refl eq_refl Hone eq_refl)
                     [{| chat_uid := "22222222"; chat_main := "Unknown User";
                         chat_sub := "..."; chat_unread := JUndefined |}] _ eq_refl)));
      discriminate.
Defined.

(** X8. The friends list behaves likewise: the explanatory paragraph for
    the empty array, otherwise one row per friend in the server's order
    with the friend's name and identifier. *)
Theorem renderFriendsList_shows st r rest friends :
  inbox st = Responds r :: rest ->
  ok r = true -> status r <> 204%N ->
  payload r = Parsed (JArr friends) ->
  (friends = [] ->
     result renderFriendsList st = Returned tt
     /\ content (run renderFriendsList st)
        = FriendsListPage (Placeholder "You haven't added any friends yet."))
  /\ (forall items,
         friends <> [] -> map friendRow friends = map Some items ->
         result renderFriendsList st = Returned tt
         /\ content (run renderFriendsList st) = FriendsListPage (Items items)
         /\ List.length items = List.length friends).
Proof.
  intros H Hok Hs Hp.
  assert (Hfetch : forall s, inbox s = inbox st ->
            apiFetch "/api/friends" noOptions s
            = (Returned (JArr friends), settled "/api/friends" noOptions s)).
  { intros s Hi. rewrite H in Hi. eapply apiFetch_parsed; eassumption. }
  split.
  - intros ->. unfold result, run, renderFriendsList, renderLoading.
    erewrite bind_returned by reflexivity.
    erewrite bind_returned by reflexivity.
    erewrite bind_returned by (apply Hfetch; reflexivity).
    split; reflexivity.
  - intros items Hne Hrows.
    assert (Hlen : strict_eq (JNum (decimal (N.of_nat (List.length friends)))) (JNum "0")
                   = false).
    { rewrite length_is_zero. destruct friends; [contradiction | reflexivity]. }
    assert (Hrun : exists s', renderFriendsList st
                     = (Returned tt, run (render (FriendsListPage (Items items))) s')).
    { unfold renderFriendsList, renderLoading.
      erewrite bind_returned by reflexivity.
      erewrite bind_returned by reflexivity.
      erewrite bind_returned by (apply Hfetch; reflexivity).
      erewrite bind_returned by reflexivity.
      cbn [String.eqb Ascii.eqb Bool.eqb]. rewrite Hlen.
      erewrite bind_returned.
      2:{ erewrite bind_returned
            by (cbn [array_map]; apply (mapM_returns friendItem friendRow);
                [intros; apply friendItem_returns; assumption | exact Hrows]).
          reflexivity. }
      eexists. reflexivity. }
    destruct Hrun as [s' Hrun]. unfold result, run at 1. rewrite Hrun.
    repeat split.
    apply (f_equal (@List.length _)) in Hrows. rewrite !length_map in Hrows.
    symmetry. exact Hrows.
Qed.

Lemma renderFriendsList_shows_witness :
  let two := {| status := 200;
                payload := Parsed (JArr [JObj [("unique_id", JStr "22222222");
                                               ("username", JStr "bob")];
                                         JObj [("unique_id", JStr "33333333");
                                               ("username", JStr "cy")]]) |} in
  inbox (initialApp "proof" [Responds two]) = [Responds two]
  /\ ok two = true /\ status two <> 204%N
  /\ content (run renderFriendsList (initialApp "proof" [Responds two]))
     = FriendsListPage (Items [{| item_username := "bob"; item_uid := "22222222" |};
                               {| item_username := "cy"; item_uid := "33333333" |}]).
Proof.
  intros two.
  assert (Htwo : status two <> 204%N) by discriminate.
  split; [reflexivity | split; [reflexivity | split; [exact Htwo |]]].
  refine (proj1 (proj2 (proj2 (renderFriendsList_shows (initialApp "proof" [Responds two])
                         two [] _ eq_refl eq_refl Htwo eq_refl)
                   [{| item_username := "bob"; item_uid := "22222222" |};
                    {| item_username := "cy"; item_uid := "33333333" |}] _ eq_refl)));
    discriminate.
Defined.

(** ** The main menu and the session user *)

Ltac fetch_fails H Hok e He :=
  match goal with
  | |- context [bind (apiFetch ?ep ?o) _ ?s] =>
      destruct (apiFetch_failed ep o s _ _ H Hok) as [e He];
      rewrite (bind_thrown _ _ _ _ _ He)
  end.

(** X9. [renderMainMenu] replaces the session user by what [/api/me]
    returns and shows the welcome page for it.  A 204 answer makes the
    session user [null], after which reading the name throws a [TypeError]
    that nothing catches: the page stays on the loader and no error page is
    drawn.  A non-success answer leaves the session user as it was. *)
Theorem renderMainMenu_session st r rest :
  inbox st = Responds r :: rest ->
  (forall fs,
      ok r = true -> status r <> 204%N -> payload r = Parsed (JObj fs) ->
      result renderMainMenu st = Returned tt
      /\ currentUser (run renderMainMenu st) = JObj fs
      /\ header (run renderMainMenu st) = mainMenuHeader
      /\ content (run renderMainMenu st)
         = MainMenuPage (toString (field "username" fs))
                        (toString (field "unique_id" fs)))
  /\ (status r = 204%N ->
        kind_of (result renderMainMenu st) = Some TypeError
        /\ currentUser (run renderMainMenu st) = JNull
        /\ content (run renderMainMenu st) = LoadingPage)
  /\ (ok r = false ->
        currentUser (run renderMainMenu st) = currentUser st
        /\ exists msg, content (run renderMainMenu st) = ErrorPage "API Error" msg).
Proof.
  intros H. split; [| split].
  - intros fs Hok Hs Hp. unfold result, run, renderMainMenu, renderLoading.
    erewrite bind_returned by reflexivity.
    erewrite bind_returned by reflexivity.
    erewrite bind_returned
      by (eapply apiFetch_parsed; [exact H | exact Hok | exact Hs | exact Hp]).
    repeat split.
  - intros Hs. unfold result, run, renderMainMenu, renderLoading.
    erewrite bind_returned by reflexivity.
    erewrite bind_returned by reflexivity.
    erewrite bind_returned by (eapply apiFetch_no_content; [exact H | exact Hs]).
    repeat split.
  - intros Hok. unfold run, renderMainMenu, renderLoading.
    erewrite bind_returned by reflexivity.
    erewrite bind_returned by reflexivity.
    fetch_fails H Hok e He. cbn [snd].
    split; [reflexivity | exists (message e); reflexivity].
Qed.

Lemma renderMainMenu_session_witness :
  inbox (chatting "" [Responds noContent]) = [Responds noContent]
  /\ status noContent = 204%N
  /\ currentUser (run renderMainMenu (chatting "" [Responds noContent])) = JNull
  /\ content (run renderMainMenu (chatting "" [Responds noContent])) = LoadingPage.
Proof.
  split; [reflexivity | split; [reflexivity |]].
  exact (proj2 (proj1 (proj2 (renderMainMenu_session (chatting "" [Responds noContent])
                                noContent [] eq_refl)) eq_refl)).
Defined.

(** ** The profile view *)

Lemma readRelation_object rel st :
  readRelation (JObj rel) st = (Returned (flagsOf rel), st).
Proof. reflexivity. Qed.

(** X10. For a profile object whose [relation] is an object,
    [renderProfile] requests [/api/profile/<uid>] and shows name, status
    and identifier with the buttons of the relation's flags, a flag absent
    from the object counting as false. *)
Theorem renderProfile_shows (targetUid : JsVal) st r rest fs rel :
  inbox st = Responds r :: rest ->
  ok r = true -> status r <> 204%N ->
  payload r = Parsed (JObj fs) ->
  lookup "relation" fs = Some (JObj rel) ->
  result (renderProfile targetUid) st = Returned tt
  /\ header (run (renderProfile targetUid) st) = profileHeader
  /\ content (run (renderProfile targetUid) st)
     = ProfilePage (toString (field "username" fs)) (toString (field "status" fs))
                   (toString (field "unique_id" fs)) (buttonsHtml (flagsOf rel))
  /\ requests (log (run (renderProfile targetUid) st))
     = requests (log st)
       ++ [((apiBaseUrl ++ "/api/profile/" ++ toString targetUid)%string,
            requestInit noOptions st)].
Proof.
  intros H Hok Hs Hp Hrel. unfold result, run, renderProfile, renderLoading.
  erewrite bind_returned by reflexivity.
  erewrite bind_returned by reflexivity.
  erewrite bind_returned
    by (eapply apiFetch_parsed; [exact H | exact Hok | exact Hs | exact Hp]).
  erewrite bind_returned by (cbn [destructure getProp]; rewrite Hrel; reflexivity).
  erewrite bind_returned by apply readRelation_object.
  repeat split.
  cbn [log snd bind getProp ret render writeContent renderHeader modify settled
           requested emit set_inbox set_content set_header].
  unfold requests. rewrite !flat_map_app. cbn [flat_map]. rewrite !app_nil_r.
  reflexivity.
Qed.

Lemma renderProfile_shows_witness :
  inbox (initialApp "proof" [Responds bobProfile]) = [Responds bobProfile]
  /\ ok bobProfile = true /\ status bobProfile <> 204%N
  /\ content (run (renderProfile (JStr "22222222"))
                  (initialApp "proof" [Responds bobProfile]))
     = ProfilePage "bob" "undefined" "22222222"
         [Btn (button "unfriend" "button secondary" "Unfriend");
          Btn (button "block" "button destructive" "Block User")].
Proof.
  assert (Hs : status bobProfile <> 204%N) by discriminate.
  split; [reflexivity | split; [reflexivity | split; [exact Hs |]]].
  exact (proj1 (proj2 (proj2
           (renderProfile_shows (JStr "22222222") (initialApp "proof" [Responds bobProfile])
              bobProfile [] _ [("is_friend", JBool true)]
              eq_refl eq_refl Hs eq_refl eq_refl)))).
Defined.

(** X11. A profile object without a [relation] makes [renderProfile]
    throw a [TypeError] when it reads the first flag; the error is not
    caught by [apiFetch], so no error page is drawn and the view stays on
    the loader under the profile header. *)
Theorem renderProfile_without_relation (targetUid : JsVal) st r rest fs :
  inbox st = Responds r :: rest ->
  ok r = true -> status r <> 204%N ->
  payload r = Parsed (JObj fs) ->
  lookup "relation" fs = None ->
  kind_of (result (renderProfile targetUid) st) = Some TypeError
  /\ header (run (renderProfile targetUid) st) = profileHeader
  /\ content (run (renderProfile targetUid) st) = LoadingPage.
Proof.
  intros H Hok Hs Hp Hrel. unfold result, run, renderProfile, renderLoading.
  erewrite bind_returned by reflexivity.
  erewrite bind_returned by reflexivity.
  erewrite bind_returned
    by (eapply apiFetch_parsed; [exact H | exact Hok | exact Hs | exact Hp]).
  erewrite bind_returned by (cbn [destructure getProp]; rewrite Hrel; reflexivity).
  repeat split.
Qed.

Lemma renderProfile_without_relation_witness :
  inbox (initialApp "proof" [Responds meResponse]) = [Responds meResponse]
  /\ ok meResponse = true /\ status meResponse <> 204%N
  /\ content (run (renderProfile (JStr "11111111"))
                  (initialApp "proof" [Responds meResponse])) = LoadingPage.
Proof.
  assert (Hs : status meResponse <> 204%N) by discriminate.
  split; [reflexivity | split; [reflexivity | split; [exact Hs |]]].
  exact (proj2 (proj2
           (renderProfile_without_relation (JStr "11111111")
              (initialApp "proof" [Responds meResponse]) meResponse [] _
              eq_refl eq_refl Hs eq_refl eq_refl))).
Defined.

(** ** The requests view *)

Lemma requestItem_object type fs st :
  requestItem type (JObj fs) st = (Returned (requestRow type fs), st).
Proof. reflexivity. Qed.

Lemma renderRequestList_objects type rs st :
  renderRequestList (JArr (map JObj rs)) type st
  = (Returned (requestListing type rs), st).
Proof.
  unfold renderRequestList.
  erewrite bind_returned by reflexivity.
  cbn [String.eqb Ascii.eqb Bool.eqb]. rewrite length_is_zero.
  destruct rs as [| o rs]; [reflexivity |].
  cbn [map requestListing].
  erewrite bind_returned; [reflexivity |].
  cbn [array_map].
  apply (mapM_returns (requestItem type)
           (fun x => match x with JObj fs => Some (requestRow type fs) | _ => None end)).
  - intros x y Hx. destruct x; try discriminate Hx. injection Hx as <-.
    apply requestItem_object.
  - cbn [map]. f_equal. rewrite !map_map. reflexivity.
Qed.

(** X12. For an answer holding two arrays of request objects, the requests
    view shows both lists independently: [None] for an empty one, otherwise
    one row per request in the server's order.  A received request's row
    carries exactly the accept and decline buttons, a sent request's row
    exactly the cancel button, each tagged with that request's identifier. *)
Theorem renderRequests_shows st r rest fs rs ss :
  inbox st = Responds r :: rest ->
  ok r = true -> status r <> 204%N ->
  payload r = Parsed (JObj fs) ->
  lookup "received" fs = Some (JArr (map JObj rs)) ->
  lookup "sent" fs = Some (JArr (map JObj ss)) ->
  (result renderRequests st = Returned tt
   /\ header (run renderRequests st) = requestsHeader
   /\ content (run renderRequests st)
      = RequestsPage (requestListing "received" rs) (requestListing "sent" ss))
  /\ (forall o,
         rowButtons (req_buttons (requestRow "received" o))
         = [("accept_friend", Some (toString (field "unique_id" o)));
            ("decline_friend", Some (toString (field "unique_id" o)))]
         /\ rowButtons (req_buttons (requestRow "sent" o))
            = [("cancel_request", Some (toString (field "unique_id" o)))]).
Proof.
  intros H Hok Hs Hp Hr Hsent. split; [| intros o; split; reflexivity].
  unfold result, run, renderRequests, renderLoading.
  erewrite bind_returned by reflexivity.
  erewrite bind_returned by reflexivity.
  erewrite bind_returned
    by (eapply apiFetch_parsed; [exact H | exact Hok | exact Hs | exact Hp]).
  erewrite bind_returned by (cbn [destructure getProp]; rewrite Hr; reflexivity).
  erewrite bind_returned by (cbn [destructure getProp]; rewrite Hsent; reflexivity).
  erewrite bind_returned by apply renderRequestList_objects.
  erewrite bind_returned by apply renderRequestList_objects.
  repeat split.
Qed.

Lemma renderRequests_shows_witness :
  let answer :=
    {| status := 200;
       payload := Parsed (JObj [("received", JArr (map JObj [[("username", JStr "bob");
                                                              ("unique_id", JStr "22222222")]]));
                                ("sent", JArr (map JObj []))]) |} in
  inbox (initialApp "proof" [Responds answer]) = [Responds answer]
  /\ ok answer = true /\ status answer <> 204%N
  /\ content (run renderRequests (initialApp "proof" [Responds answer]))
     = RequestsPage
         (Items [requestRow "received" [("username", JStr "bob");
                                        ("unique_id", JStr "22222222")]])
         (Placeholder "None").
Proof.
  intros answer.
  assert (Hs : status answer <> 204%N) by discriminate.
  split; [reflexivity | split; [reflexivity | split; [exact Hs |]]].
  exact (proj2 (proj2 (proj1
           (renderRequests_shows (initialApp "proof" [Responds answer]) answer [] _
              [[("username", JStr "bob"); ("unique_id", JStr "22222222")]] []
              eq_refl eq_refl Hs eq_refl eq_refl eq_refl)))).
Defined.

(** ** Actions that fail *)

(** X13. When the server refuses an action (non-success status), none of
    the three handlers that re-render in place goes on: the profile and
    requests handlers show no success alert, no page function is invoked,
    and the error page is the last thing drawn; the log gains the request
    and the two writes of the error page only (after the write that
    disables the input, for the send button). *)
Theorem refused_action_stops_handler st r rest :
  inbox st = Responds r :: rest ->
  ok r = false ->
  (forall targetUid a uid',
      exists e endpoint,
        profileActionClick targetUid
          {| tagName := "BUTTON"; dataset_action := Some a; dataset_uid := uid' |} st
        = (Thrown e, errorShown (message e) (settled endpoint (POST None) st)))
  /\ (forall a uid',
         a <> "" ->
         exists e,
           requestsClick
             {| tagName := "BUTTON"; dataset_action := Some a; dataset_uid := uid' |} st
           = (Thrown e,
              errorShown (message e)
                (settled ("/api/action/" ++ a ++ "/" ++ interpolate uid') (POST None) st)))
  /\ (forall (uid : JsVal) messages value disabled,
         content st = ChatPage messages value disabled ->
         trim value <> "" ->
         exists e,
           sendClick uid st
           = (Thrown e,
              errorShown (message e)
                (settled ("/api/message/" ++ toString uid) (messagePost value)
                   (run (writeContent (ChatPage messages value true)) st))))
  /\ (forall e s0 endpoint options,
         log (errorShown (message e) (settled endpoint options s0))
         = log s0 ++ [ERequest (apiBaseUrl ++ endpoint) (requestInit options s0);
                      ESetHeader errorHeader;
                      ESetContent (ErrorPage "API Error" (message e))]).
Proof.
  intros H Hok. split; [| split; [| split]].
  - intros targetUid a uid'. unfold profileActionClick.
    cbn [tagName dataset_action String.eqb Ascii.eqb Bool.eqb].
    destruct (same_text (Some a) (Some "add_friend")).
    + destruct (apiFetch_failed ("/api/friend_request/" ++ toString targetUid)
                  (POST None) st r rest H Hok) as [e He].
      exists e. eexists. rewrite (bind_thrown _ _ _ _ _ He). reflexivity.
    + destruct (apiFetch_failed
                  ("/api/action/" ++ interpolate (Some a) ++ "/" ++ toString targetUid)
                  (POST None) st r rest H Hok) as [e He].
      exists e. eexists. rewrite (bind_thrown _ _ _ _ _ He). reflexivity.
  - intros a uid' Ha. unfold requestsClick.
    cbn [tagName dataset_action dataset_uid nonEmpty String.eqb Ascii.eqb Bool.eqb andb].
    apply String.eqb_neq in Ha. rewrite Ha. cbn [negb interpolate].
    destruct (apiFetch_failed ("/api/action/" ++ a ++ "/" ++ interpolate uid')
                (POST None) st r rest H Hok) as [e He].
    exists e. rewrite (bind_thrown _ _ _ _ _ He). reflexivity.
  - intros uid messages value disabled Hc Ht.
    rewrite (sendClick_nonempty uid st messages value disabled Hc Ht).
    erewrite bind_returned by reflexivity.
    fetch_fails H Hok e He. exists e. reflexivity.
  - intros e s0 endpoint options.
    rewrite (proj1 (proj2 (proj2 (errorShown_spec _ _)))).
    cbn [log settled set_inbox requested emit]. rewrite <- app_assoc. reflexivity.
Qed.

Lemma refused_action_stops_handler_witness :
  let st := chatting "hello" [Responds notFound] in
  inbox st = [Responds notFound]
  /\ ok notFound = false
  /\ requestsClick {| tagName := "BUTTON"; dataset_action := Some "accept_friend";
                      dataset_uid := Some "22222222" |} st
     = (Thrown {| kind := Error; message := "not found" |},
        errorShown "not found"
          (settled "/api/action/accept_friend/22222222" (POST None) st)).
Proof.
  intros st. split; [reflexivity | split; [reflexivity |]].
  destruct (proj1 (proj2 (refused_action_stops_handler st notFound [] eq_refl eq_refl))
              "accept_friend" (Some "22222222")) as [e He]; [discriminate |].
  reflexivity.
Defined.

(** ** The main menu's listener *)

Lemma navigateTo_pair f actuals st :
  navigateTo f actuals st = (Returned tt, run (navigateTo f actuals) st).
Proof.
  pose proof (navigateTo_returns f actuals st) as H. unfold result, run in *.
  destruct (navigateTo f actuals st) as [out s']. simpl in *. subst out. reflexivity.
Qed.

(** X14. The click listener the main menu leaves on the content area acts
    on four actions only: [chats], [friends] and [requests] are
    [navigateTo] of the matching page function, [search] is [handleSearch];
    a click on an element carrying any other action, or none, does nothing
    at all, whatever the element is. *)
Theorem mainMenuClick_dispatch tag uid' buttonId answer st :
  let click a :=
    mainMenuClick {| tagName := tag; dataset_action := a; dataset_uid := uid' |}
                  buttonId answer st in
  click (Some "chats") = navigateTo PageChatList [] st
  /\ click (Some "friends") = navigateTo PageFriendsList [] st
  /\ click (Some "requests") = navigateTo PageRequests [] st
  /\ click (Some "search") = handleSearch buttonId answer st
  /\ (forall a,
         a <> "chats" -> a <> "friends" -> a <> "requests" -> a <> "search" ->
         click (Some a) = (Returned tt, st))
  /\ click None = (Returned tt, st).
Proof.
  intros click. unfold click, mainMenuClick.
  cbn [dataset_action nonEmpty same_text String.eqb Ascii.eqb Bool.eqb negb].
  repeat split.
  - rewrite (bind_returned _ _ _ _ _ (navigateTo_pair PageChatList [] st)).
    symmetry. apply navigateTo_pair.
  - erewrite bind_returned by reflexivity.
    rewrite (bind_returned _ _ _ _ _ (navigateTo_pair PageFriendsList [] st)).
    symmetry. apply navigateTo_pair.
  - erewrite bind_returned by reflexivity.
    erewrite bind_returned by reflexivity.
    rewrite (bind_returned _ _ _ _ _ (navigateTo_pair PageRequests [] st)).
    symmetry. apply navigateTo_pair.
  - intros a H1 H2 H3 H4.
    apply String.eqb_neq in H1, H2, H3, H4.
    destruct (a =? "")%string eqn:E; [reflexivity |].
    cbn [negb]. rewrite H1, H2, H3, H4. reflexivity.
Qed.

Lemma mainMenuClick_dispatch_witness :
  "accept_friend" <> "chats" /\ "accept_friend" <> "friends"
  /\ "accept_friend" <> "requests" /\ "accept_friend" <> "search"
  /\ mainMenuClick {| tagName := "BUTTON"; dataset_action := Some "accept_friend";
                      dataset_uid := Some "22222222" |} None None started
     = (Returned tt, started).
Proof.
  assert (H1 : "accept_friend" <> "chats") by discriminate.
  assert (H2 : "accept_friend" <> "friends") by discriminate.
  assert (H3 : "accept_friend" <> "requests") by discriminate.
  assert (H4 : "accept_friend" <> "search") by discriminate.
  repeat (split; [assumption |]).
  exact (proj1 (proj2 (proj2 (proj2 (proj2
           (mainMenuClick_dispatch "BUTTON" (Some "22222222") None None started)))))
           "accept_friend" H1 H2 H3 H4).
Defined.

(** ** The text a send posts *)

Lemma trimStart_allWhiteSpace s : allWhiteSpace (trimStart s) = allWhiteSpace s.
Proof.
  induction s as [| c s IH]; [reflexivity |].
  simpl. destruct (isWhiteSpace c) eqn:E; simpl; [exact IH | rewrite E; reflexivity].
Qed.

Lemma trimEnd_empty s : trimEnd s = "" -> allWhiteSpace s = true.
Proof.
  induction s as [| c s IH]; [reflexivity |].
  simpl. destruct (trimEnd s) as [| d t]; [| discriminate].
  destruct (isWhiteSpace c); [intros _; apply IH; reflexivity | discriminate].
Qed.

Lemma trim_nonempty s : allWhiteSpace s = false -> trim s <> "".
Proof.
  intros H E. apply trimEnd_empty in E.
  rewrite trimStart_allWhiteSpace in E. congruence.
Qed.

Lemma trimStart_head s : startsWithWhiteSpace (trimStart s) = false.
Proof.
  induction s as [| c s IH]; [reflexivity |].
  simpl. destruct (isWhiteSpace c) eqn:E; [exact IH | exact E].
Qed.

Lemma trimEnd_head s :
  startsWithWhiteSpace s = false -> startsWithWhiteSpace (trimEnd s) = false.
Proof.
  destruct s as [| c s]; [reflexivity |].
  simpl. intros H. destruct (trimEnd s); [rewrite H |]; exact H.
Qed.

Lemma trimEnd_last s : endsWithWhiteSpace (trimEnd s) = false.
Proof.
  induction s as [| c s IH]; [reflexivity |].
  simpl. destruct (trimEnd s) as [| d t].
  - destruct (isWhiteSpace c) eqn:E; [reflexivity | exact E].
  - exact IH.
Qed.

(** X15. When the typed text holds a code unit that is not white space,
    the send handler does post (the converse of the blank case): it
    disables the input and sends one POST to [/api/message/<uid>] whose body
    is the JSON object with the single key [text], holding the typed text
    with the white space at both ends removed; that text is not empty and
    neither starts nor ends with white space. *)
Theorem send_posts_trimmed_text (uid : JsVal) st messages value disabled :
  content st = ChatPage messages value disabled ->
  allWhiteSpace value = false ->
  (exists rest,
      log (run (sendClick uid) st)
      = log st ++ ESetContent (ChatPage messages value true)
               :: ERequest (apiBaseUrl ++ "/api/message/" ++ toString uid)
                           (requestInit (messagePost value) st)
               :: rest)
  /\ method (messagePost value) = Some "POST"
  /\ body (messagePost value)
     = Some ("{" ++ quote "text" ++ ":" ++ quote (trim value) ++ "}")%string
  /\ trim value <> ""
  /\ startsWithWhiteSpace (trim value) = false
  /\ endsWithWhiteSpace (trim value) = false.
Proof.
  intros Hc Hw.
  pose proof (trim_nonempty value Hw) as Ht.
  split; [| repeat split].
  - unfold run. rewrite (sendClick_nonempty uid st messages value disabled Hc Ht).
    erewrite bind_returned by reflexivity.
    match goal with
    | |- context [bind (apiFetch ?ep ?o) _ ?s] =>
        destruct (apiFetch_cases ep o s) as [[_ H] | [[v H] | [e H]]]
    end.
    + rewrite (bind_pending _ _ _ _ H). exists [].
      cbn [snd log requested emit set_content]. rewrite <- app_assoc. reflexivity.
    + rewrite (bind_returned _ _ _ _ _ H). unfold detach. cbn [snd].
      match goal with
      | |- context [call ?f ?a ?s] =>
          destruct (call_spec f a s) as [_ (rest & Hl & _)]
      end.
      unfold run in Hl. rewrite Hl. eexists.
      cbn [log settled set_inbox requested emit set_content].
      rewrite <- !app_assoc. reflexivity.
    + rewrite (bind_thrown _ _ _ _ _ H). cbn [snd]. eexists.
      rewrite (proj1 (proj2 (proj2 (errorShown_spec _ _)))).
      cbn [log settled set_inbox requested emit set_content].
      rewrite <- !app_assoc. reflexivity.
  - exact Ht.
  - unfold trim. apply trimEnd_head, trimStart_head.
  - unfold trim. apply trimEnd_last.
Qed.

Lemma send_posts_trimmed_text_witness :
  content (chatting " hi " []) = ChatPage (Some []) " hi " false
  /\ allWhiteSpace " hi " = false
  /\ body (messagePost " hi ")
     = Some ("{" ++ quote "text" ++ ":" ++ quote "hi" ++ "}")%string.
Proof.
  split; [reflexivity | split; [reflexivity |]].
  exact (proj1 (proj2 (proj2
           (send_posts_trimmed_text (JStr "22222222") (chatting " hi " [])
              (Some []) " hi " false eq_refl eq_refl)))).
Defined.

(** ** What a page function never does *)

Lemma page_keeps_user f actuals st :
  f <> PageMainMenu ->
  currentUser (run (call f actuals) st) = currentUser st.
Proof.
  intros Hf. unfold run, call. erewrite bind_returned by reflexivity.
  set (R := fun a b : App => currentUser b = currentUser a).
  assert (Hrefl : forall a, R a a) by reflexivity.
  assert (Htrans : forall a b c, R a b -> R b c -> R a c)
    by (unfold R; intros; congruence).
  change (R (emit (ECall f actuals) st)
            (snd (match f with
                  | PageMainMenu => renderMainMenu
                  | PageChatList => renderChatList
                  | PageChat => renderChat (nth 0 actuals JUndefined)
                  | PageProfile => renderProfile (nth 0 actuals JUndefined)
                  | PageFriendsList => renderFriendsList
                  | PageRequests => renderRequests
                  end (emit (ECall f actuals) st)))).
  destruct f;
    [ contradiction
    | apply (respects_renderChatList R)
    | apply (respects_renderChat R)
    | apply (respects_renderProfile R)
    | apply (respects_renderFriendsList R)
    | apply (respects_renderRequests R) ];
    first [ exact Hrefl | exact Htrans | intros; reflexivity ].
Qed.

(** X16. Whatever the server answers, an invoked page function keeps to
    the page: it leaves the navigation stack alone, and after the record of
    its own invocation the log gains only requests and writes to header and
    content (no alert, no popup, no invocation of another page function).
    Only [renderMainMenu] writes the session user. *)
Theorem page_function_keeps_to_the_page f actuals st :
  navigationStack (run (call f actuals) st) = navigationStack st
  /\ (exists rest,
         log (run (call f actuals) st) = log st ++ ECall f actuals :: rest
         /\ forallb page_event rest = true
         /\ alerts rest = []
         /\ page_calls rest = 0)
  /\ (f <> PageMainMenu ->
      currentUser (run (call f actuals) st) = currentUser st).
Proof.
  destruct (call_spec f actuals st) as [Hs (rest & Hl & Hq)].
  split; [exact Hs | split].
  - exists rest. repeat split; try assumption.
    + apply page_events_no_alerts, Hq.
    + apply page_events_no_calls, Hq.
  - apply page_keeps_user.
Qed.

Lemma page_function_keeps_to_the_page_witness :
  PageChat <> PageMainMenu
  /\ currentUser (run (call PageChat [JStr "22222222"])
                      (chatting "" [Responds bobProfile; Responds (conversation oneMessage)]))
     = currentUser (chatting "" []).
Proof.
  assert (H : PageChat <> PageMainMenu) by discriminate.
  split; [exact H |].
  exact (proj2 (proj2 (page_function_keeps_to_the_page PageChat [JStr "22222222"]
                         (chatting "" [Responds bobProfile;
                                       Responds (conversation oneMessage)]))) H).
Defined.

(** ** The partner's name *)

(** X17. When the partner's profile arrives with a success status,
    [getPartnerUsername] draws nothing.  It returns the [username] of the
    profile object, which is [undefined] when the object has none: the chat
    header then reads [Chat with undefined], the identifier is not used.
    A 204 answer, which has no profile to read, gives the identifier back
    through the [catch], without an error page. *)
Theorem partner_name_from_profile (uid : JsVal) st r rest :
  inbox st = Responds r :: rest ->
  ok r = true ->
  let arrived := settled ("/api/profile/" ++ toString uid) noOptions st in
  (status r = 204%N -> getPartnerUsername uid st = (Returned uid, arrived))
  /\ (forall fs,
         status r <> 204%N -> payload r = Parsed (JObj fs) ->
         getPartnerUsername uid st = (Returned (field "username" fs), arrived))
  /\ (forall fs,
         status r <> 204%N -> payload r = Parsed (JObj fs) ->
         lookup "username" fs = None ->
         exists rest',
           log (run (renderChat uid) st)
           = log arrived
             ++ ESetHeader {| title := "Chat with undefined"; backButton := true |}
             :: rest')
  /\ header arrived = header st
  /\ content arrived = content st.
Proof.
  intros H Hok arrived.
  assert (Hname : forall fs,
             status r <> 204%N -> payload r = Parsed (JObj fs) ->
             getPartnerUsername uid st = (Returned (field "username" fs), arrived)).
  { intros fs Hs Hp. unfold getPartnerUsername, try_catch.
    erewrite bind_returned
      by (eapply apiFetch_parsed; [exact H | exact Hok | exact Hs | exact Hp]).
    reflexivity. }
  split; [| split; [exact Hname | split; [| split; reflexivity]]].
  - intros Hs. unfold getPartnerUsername, try_catch.
    erewrite bind_returned by (eapply apiFetch_no_content; [exact H | exact Hs]).
    reflexivity.
  - intros fs Hs Hp Hu. unfold run.
    rewrite renderChat_unfold, (bind_returned _ _ _ _ _ (Hname fs Hs Hp)).
    unfold field. rewrite Hu. unfold chatAfterLookup.
    erewrite bind_returned by reflexivity.
    erewrite bind_returned by reflexivity.
    match goal with
    | |- context [chatConversation uid ?s] =>
        destruct (chatConversation_quiet uid s) as [_ (rest' & Hl & _)]
    end.
    eexists. rewrite Hl. cbn [log emit set_content set_header].
    rewrite <- !app_assoc. reflexivity.
Qed.

Lemma partner_name_from_profile_witness :
  let st := chatting "" [Responds noContent] in
  inbox st = [Responds noContent]
  /\ ok noContent = true
  /\ status noContent = 204%N
  /\ getPartnerUsername (JStr "22222222") st
     = (Returned (JStr "22222222"), settled "/api/profile/22222222" noOptions st).
Proof.
  intros st. split; [reflexivity | split; [reflexivity | split; [reflexivity |]]].
  exact (proj1 (partner_name_from_profile (JStr "22222222") st noContent []
                  eq_refl eq_refl) eq_refl).
Defined.

(** ** Rows that navigate *)

(** X18. With the list view on top of the stack, a click on a row always
    navigates: a row of the chat list pushes the chat with the row's
    identifier, a row of the friends list pushes that friend's profile, and
    the page function is invoked with that identifier (the guard cannot
    hold, the page functions differ). *)
Theorem row_click_navigates st stack uid :
  (navigationStack st = stack ++ [{| func := PageChatList; args := [] |}] ->
   navigationStack (run (chatListItemClick uid) st)
   = navigationStack st ++ [{| func := PageChat; args := [JStr uid] |}]
   /\ exists rest,
       log (run (chatListItemClick uid) st)
       = log st ++ ECall PageChat [JStr uid] :: rest)
  /\ (navigationStack st = stack ++ [{| func := PageFriendsList; args := [] |}] ->
      navigationStack (run (friendsListItemClick uid) st)
      = navigationStack st ++ [{| func := PageProfile; args := [JStr uid] |}]
      /\ exists rest,
          log (run (friendsListItemClick uid) st)
          = log st ++ ECall PageProfile [JStr uid] :: rest).
Proof.
  split; intros Hst; unfold chatListItemClick, friendsListItemClick, run;
    (rewrite navigateTo_fresh by (rewrite Hst, tail_entry_push; reflexivity));
    cbn [snd];
    match goal with
    | |- context [run (call ?f ?a) ?s] =>
        destruct (call_spec f a s) as [Hs (rest & Hl & _)]
    end;
    (split; [exact Hs | exists rest; exact Hl]).
Qed.

Lemma row_click_navigates_witness :
  let st := run (navigateTo PageChatList []) started in
  navigationStack st = [mainMenuEntry] ++ [{| func := PageChatList; args := [] |}]
  /\ navigationStack (run (chatListItemClick "22222222") st)
     = navigationStack st ++ [{| func := PageChat; args := [JStr "22222222"] |}].
Proof.
  intros st. split; [reflexivity |].
  exact (proj1 (proj1 (row_click_navigates st [mainMenuEntry] "22222222") eq_refl)).
Defined.

(** ** A conversation without messages *)

(** X19. When the conversation arrives as an object without a [messages]
    array, [renderChat] (after its partner lookup) has drawn the chat
    header and the skeleton, then throws a [TypeError] at [messages.map];
    nothing catches it, so no error page is drawn and the message area keeps
    its loader. *)
Theorem chat_without_messages (uid name : JsVal) st r rest fs :
  inbox st = Responds r :: rest ->
  ok r = true -> status r <> 204%N ->
  payload r = Parsed (JObj fs) ->
  lookup "messages" fs = None ->
  kind_of (result (chatAfterLookup uid name) st) = Some TypeError
  /\ header (run (chatAfterLookup uid name) st) = chatHeader name
  /\ content (run (chatAfterLookup uid name) st) = ChatPage None "" false.
Proof.
  intros H Hok Hs Hp Hm.
  unfold result, run, chatAfterLookup, chatConversation.
  erewrite bind_returned by reflexivity.
  erewrite bind_returned by reflexivity.
  erewrite bind_returned
    by (eapply apiFetch_parsed; [exact H | exact Hok | exact Hs | exact Hp]).
  erewrite bind_returned by (cbn [destructure getProp]; rewrite Hm; reflexivity).
  repeat split.
Qed.

Lemma chat_without_messages_witness :
  inbox (chatting "" [Responds meResponse]) = [Responds meResponse]
  /\ ok meResponse = true /\ status meResponse <> 204%N
  /\ content (run (chatAfterLookup (JStr "22222222") (JStr "bob"))
                  (chatting "" [Responds meResponse]))
     = ChatPage None "" false.
Proof.
  assert (Hs : status meResponse <> 204%N) by discriminate.
  split; [reflexivity | split; [reflexivity | split; [exact Hs |]]].
  exact (proj2 (proj2
           (chat_without_messages (JStr "22222222") (JStr "bob")
              (chatting "" [Responds meResponse]) meResponse [] _
              eq_refl eq_refl Hs eq_refl eq_refl))).
Defined.

(** ** Actions that succeed *)

(** X20. A click on a profile button whose request succeeds posts, without
    a body, to [/api/friend_request/<uid>] for the add-friend button and to
    [/api/action/<action>/<uid>] for every other action; it then shows one
    alert naming the action with its first underscore turned into a space,
    and invokes [renderProfile] for the same user.  A click on anything
    that is not a button does nothing. *)
Theorem profile_action_posts_and_rerenders (targetUid : JsVal) st a uid' r rest :
  inbox st = Responds r :: rest ->
  returns_value r ->
  let endpoint :=
    (if a =? "add_friend" then "/api/friend_request/" ++ toString targetUid
     else "/api/action/" ++ a ++ "/" ++ toString targetUid)%string in
  profileActionClick targetUid
    {| tagName := "BUTTON"; dataset_action := Some a; dataset_uid := uid' |} st
  = (Returned tt,
     run (call PageProfile [targetUid])
         (emit (EShowAlert ("Action '" ++ replace "_" " " a ++ "' was successful!"))
               (settled endpoint (POST None) st)))
  /\ (forall tag action,
         tag <> "BUTTON" ->
         profileActionClick targetUid
           {| tagName := tag; dataset_action := action; dataset_uid := uid' |} st
         = (Returned tt, st)).
Proof.
  intros Hi Hr endpoint. split.
  - unfold profileActionClick.
    cbn [tagName dataset_action String.eqb Ascii.eqb Bool.eqb same_text interpolate].
    unfold endpoint. destruct (a =? "add_friend")%string.
    + destruct (apiFetch_returns ("/api/friend_request/" ++ toString targetUid)
                  (POST None) st r rest Hi Hr) as [v Hv].
      rewrite (bind_returned _ _ _ _ _ Hv).
      erewrite bind_returned by reflexivity.
      rewrite (bind_returned _ _ _ _ _ (eq_refl : showAlert _ _ = (Returned tt, _))).
      unfold detach, run, showAlert, modify. cbn [snd]. reflexivity.
    + destruct (apiFetch_returns ("/api/action/" ++ a ++ "/" ++ toString targetUid)
                  (POST None) st r rest Hi Hr) as [v Hv].
      rewrite (bind_returned _ _ _ _ _ Hv).
      erewrite bind_returned by reflexivity.
      rewrite (bind_returned _ _ _ _ _ (eq_refl : showAlert _ _ = (Returned tt, _))).
      unfold detach, run, showAlert, modify. cbn [snd]. reflexivity.
  - intros tag action Htag. unfold profileActionClick. cbn [tagName].
    apply String.eqb_neq in Htag. rewrite Htag. reflexivity.
Qed.

Lemma profile_action_posts_and_rerenders_witness :
  let st := chatting "" [Responds noContent; Responds bobProfile] in
  inbox st = Responds noContent :: [Responds bobProfile]
  /\ returns_value noContent
  /\ profileActionClick (JStr "22222222")
       {| tagName := "BUTTON"; dataset_action := Some "cancel_request";
          dataset_uid := None |} st
     = (Returned tt,
        run (call PageProfile [JStr "22222222"])
            (emit (EShowAlert "Action 'cancel request' was successful!")
                  (settled "/api/action/cancel_request/22222222" (POST None) st))).
Proof.
  intros st.
  assert (Hr : returns_value noContent) by (split; [reflexivity | left; reflexivity]).
  split; [reflexivity | split; [exact Hr |]].
  exact (proj1 (profile_action_posts_and_rerenders (JStr "22222222") st "cancel_request"
                  None noContent [Responds bobProfile] eq_refl Hr)).
Defined.
